(** * Network address resolver of charm-cinder

    A shallow embedding of [hooks/charmhelpers/contrib/network/ip.py]:
    [_validate_cidr], [get_address_in_network], [is_address_in_network],
    [_get_for_address], [get_iface_for_address] and
    [get_netmask_for_address].

    The module talks to three outside parties: the [netaddr] parsing
    library, the [netifaces] interface enumeration and the logging and
    process-exit facility.  [netaddr] is an interface here (class
    [NetAddr]), so that the theorems hold for whatever the library
    accepts; a reference implementation for dotted-quad IPv4 ([IPv4]) is
    used to run the functions on concrete inputs.  The host's interface
    table is an explicit argument; exceptions and the log are explicit in
    the result. *)

From Stdlib Require Import ZArith Ascii String List Lia Bool.
From stdpp Require Import base option list strings gmap.

Local Open Scope string_scope.
Local Open Scope list_scope.
Local Open Scope Z_scope.

(** ** Python values and effects *)

(** The exceptions that can leave the module.  [SystemExit] is what
    [sys.exit] raises. *)
Inductive exn : Type :=
  | ValueError (msg : string)
  | AddrFormatError (msg : string)
  | TypeError (msg : string)
  | KeyError (key : string)
  | IndexError
  | SystemExit (code : Z).

(** A computation that returns or raises. *)
Inductive result (A : Type) : Type :=
  | Ret (a : A)
  | Raise (e : exn).
Arguments Ret {A} a.
Arguments Raise {A} e.

#[global] Instance result_ret : MRet result := @Ret.
#[global] Instance result_bind : MBind result := λ A B f m,
  match m with
  | Ret a => f a
  | Raise e => Raise e
  end.

(** Modelled from the spec: the levels of [charmhelpers.core.hookenv], of
    which the module imports [ERROR]; [hookenv] is not among the sources
    at hand, the spec calls it a logging sink. *)
Inductive log_level : Type := CRITICAL | ERROR | WARNING | INFO | DEBUG.

Record log_record : Type := LogRecord { level : log_level; message : string }.

(** A computation that may also write to the log: the records written, in
    order, and how the computation ended. *)
Record io (A : Type) : Type := IO { output : list log_record; outcome : result A }.
Arguments IO {A} output outcome.
Arguments output {A} _.
Arguments outcome {A} _.

#[global] Instance io_ret : MRet io := λ A a, IO [] (Ret a).
#[global] Instance io_bind : MBind io := λ A B f m,
  match outcome m with
  | Ret a => IO (output m ++ output (f a)) (outcome (f a))
  | Raise e => IO (output m) (Raise e)
  end.

Definition lift {A} (r : result A) : io A := IO [] r.

(** Modelled from the spec: [hookenv.log(message, level)], the logging
    sink; it writes one record and returns. *)
Definition log (msg : string) (lvl : log_level) : io unit :=
  IO [LogRecord lvl msg] (Ret tt).

(** [sys.exit(code)]. *)
Definition sys_exit {A} (code : Z) : io A := IO [] (Raise (SystemExit code)).

(** [except (netaddr.core.AddrFormatError, ValueError)]. *)
Definition is_format_error (e : exn) : bool :=
  match e with
  | ValueError _ | AddrFormatError _ => true
  | _ => false
  end.

(** [try: body except (AddrFormatError, ValueError): raise handler]. *)
Definition try_except {A} (body : result A) (handler : exn) : result A :=
  match body with
  | Ret a => Ret a
  | Raise e => if is_format_error e then Raise handler else Raise e
  end.

(** ["%s" % v] for a value that is a string or [None]. *)
Definition py_str (v : option string) : string :=
  match v with
  | Some s => s
  | None => "None"
  end.

(** [d[k]] on a dictionary with string keys. *)
Definition getitem {V} (d : gmap string V) (k : string) : result V :=
  match d !! k with
  | Some v => Ret v
  | None => Raise (KeyError k)
  end.

(** [l[0]]. *)
Definition first_item {V} (l : list V) : result V :=
  match l with
  | v :: _ => Ret v
  | [] => Raise IndexError
  end.

(** ** The netaddr library *)

(** The operations of [netaddr] the module uses.  [IPNetwork] takes what
    the module passes to it: a string or [None]. *)
Class NetAddr : Type := {
  address : Type;
  network : Type;
  IPAddress : string → result address;
  IPNetwork : option string → result network;
  (** [ip in net] for an [IPAddress] and for an [IPNetwork] on the left. *)
  address_in : address → network → bool;
  network_in : network → network → bool;
  (** [net.ip] and [str(ip)]. *)
  network_ip : network → address;
  address_str : address → string
}.

(** What the resolver's contract needs of the library beyond its
    signatures. *)
Class NetAddrLaws `{NetAddr} : Prop := {
  (** [str] of the address of a parsed network parses back to it. *)
  address_str_parses : ∀ s c,
    IPNetwork (Some s) = Ret c →
    IPAddress (address_str (network_ip c)) = Ret (network_ip c);
  (** A network inside another has its own address inside it. *)
  network_in_address_in : ∀ s t c n,
    IPNetwork (Some s) = Ret c → IPNetwork (Some t) = Ret n →
    network_in c n = true → address_in (network_ip c) n = true;
  (** The library does not end the process. *)
  IPNetwork_no_exit : ∀ v code, IPNetwork v ≠ Raise (SystemExit code);
  IPAddress_no_exit : ∀ s code, IPAddress s ≠ Raise (SystemExit code)
}.

(** ** The netifaces library *)

Definition AF_INET : Z := 2.

(** What [netifaces.ifaddresses] returns: address family to list of
    entries, each entry a dictionary with keys such as ["addr"] and
    ["netmask"]. *)
Abbreviation ifaddrs := (gmap Z (list (gmap string string))).

(** The interface table the two calls of [netifaces] read. *)
Record host : Type := Host {
  interfaces : list string;
  ifaddresses : string → ifaddrs
}.

(** ** The module *)

Section Resolver.
Context `{NetAddr}.

Definition _validate_cidr (net : option string) : result unit :=
  try_except (_ ← IPNetwork net; Ret tt)
    (ValueError ("Network (" +:+ py_str net +:+ ") is not in CIDR presentation format")).

Definition not_found_error_out (net : option string) : io unit :=
  _ ← log ("No IP address found in network: " +:+ py_str net) ERROR;
  sys_exit 1.

(** The loop of [get_address_in_network] over the interface names still to
    visit; [Ret None] when the loop ends without [return]. *)
Fixpoint address_loop (net : option string) (h : host) (ifaces : list string)
  : result (option string) :=
  match ifaces with
  | [] => Ret None
  | iface :: rest =>
      let addresses := ifaddresses h iface in
      match addresses !! AF_INET with
      | Some entries =>
          addr ← first_item entries ≫= (λ e, getitem e "addr");
          netmask ← first_item entries ≫= (λ e, getitem e "netmask");
          cidr ← IPNetwork (Some (addr +:+ "/" +:+ netmask));
          target ← IPNetwork net;
          if network_in cidr target
          then Ret (Some (address_str (network_ip cidr)))
          else address_loop net h rest
      | None => address_loop net h rest
      end
  end.

Definition get_address_in_network (net : option string)
    (fallback : option string) (fatal : bool) (h : host) : io (option string) :=
  let continue : io (option string) :=
    _ ← lift (_validate_cidr net);
    found ← lift (address_loop net h (interfaces h));
    match found with
    | Some a => mret (Some a)
    | None =>
        match fallback with
        | Some fb => mret (Some fb)
        | None =>
            _ ← (if fatal then not_found_error_out net else mret tt);
            mret None
        end
    end in
  match net with
  | None =>
      match fallback with
      | Some fb => mret (Some fb)
      | None =>
          _ ← (if fatal then not_found_error_out net else mret tt);
          continue
      end
  | Some _ => continue
  end.

Definition is_address_in_network (net : string) (addr : string) : result bool :=
  n ← try_except (IPNetwork (Some net))
        (ValueError ("Network (" +:+ net +:+ ") is not in CIDR presentation format"));
  a ← try_except (IPAddress addr)
        (ValueError ("Address (" +:+ addr +:+ ") is not in correct presentation format"));
  if address_in a n then Ret true else Ret false.

(** The loop of [_get_for_address]. *)
Fixpoint for_address_loop (a : address) (key : string) (h : host)
    (ifaces : list string) : result (option string) :=
  match ifaces with
  | [] => Ret None
  | iface :: rest =>
      let addresses := ifaddresses h iface in
      match addresses !! AF_INET with
      | Some entries =>
          addr ← first_item entries ≫= (λ e, getitem e "addr");
          netmask ← first_item entries ≫= (λ e, getitem e "netmask");
          cidr ← IPNetwork (Some (addr +:+ "/" +:+ netmask));
          if address_in a cidr
          then
            if String.eqb key "iface"
            then Ret (Some iface)
            else v ← first_item entries ≫= (λ e, getitem e key); Ret (Some v)
          else for_address_loop a key h rest
      | None => for_address_loop a key h rest
      end
  end.

Definition _get_for_address (addr : string) (key : string) (h : host)
  : result (option string) :=
  a ← IPAddress addr;
  for_address_loop a key h (interfaces h).

Definition get_iface_for_address (addr : string) (h : host) : result (option string) :=
  _get_for_address addr "iface" h.

Definition get_netmask_for_address (addr : string) (h : host) : result (option string) :=
  _get_for_address addr "netmask" h.

End Resolver.

(** ** The words of the contract *)

Section Scan.
Context `{NetAddr}.

(** The interface has no IPv4 entry: [AF_INET] is not a key of its
    addresses. *)
Definition no_inet (h : host) (iface : string) : Prop :=
  ifaddresses h iface !! AF_INET = None.

(** [e] is the first IPv4 entry of the interface and [cidr] the network
    its address and netmask denote. *)
Definition subnet_of (h : host) (iface : string) (e : gmap string string)
    (cidr : network) : Prop :=
  ∃ more a m,
    ifaddresses h iface !! AF_INET = Some (e :: more) ∧
    e !! "addr" = Some a ∧ e !! "netmask" = Some m ∧
    IPNetwork (Some (a +:+ "/" +:+ m)) = Ret cidr.

(** The scan of [get_address_in_network] passes over the interface. *)
Definition outside (h : host) (target : network) (iface : string) : Prop :=
  no_inet h iface ∨ ∃ e c, subnet_of h iface e c ∧ network_in c target = false.

(** The scan of [_get_for_address] passes over the interface. *)
Definition not_bound (h : host) (a : address) (iface : string) : Prop :=
  no_inet h iface ∨ ∃ e c, subnet_of h iface e c ∧ address_in a c = false.

(** Reading the interface's first IPv4 entry raises [x]: the list under
    [AF_INET] is empty, the entry lacks ["addr"] or ["netmask"], or the
    library rejects the two joined by a slash. *)
Definition raises_at (h : host) (iface : string) (x : exn) : Prop :=
  ∃ entries, ifaddresses h iface !! AF_INET = Some entries ∧
    match entries with
    | [] => x = IndexError
    | e :: _ =>
        match e !! "addr", e !! "netmask" with
        | None, _ => x = KeyError "addr"
        | Some _, None => x = KeyError "netmask"
        | Some a, Some m => IPNetwork (Some (a +:+ "/" +:+ m)) = Raise x
        end
    end.

(** The interface has a first IPv4 entry that the library reads. *)
Definition readable (h : host) (iface : string) : Prop :=
  no_inet h iface ∨ ∃ e c, subnet_of h iface e c.

End Scan.

(** What the scans read of an interface: whether it has IPv4 entries,
    whether there is a first one, and that entry's ["addr"] and
    ["netmask"]. *)
Definition first_inet (h : host) (iface : string)
  : option (option (option string * option string)) :=
  (λ entries : list (gmap string string),
     (λ e : gmap string string, (e !! "addr", e !! "netmask")) <$> head entries)
  <$> (ifaddresses h iface !! AF_INET).

(** ** Error messages *)

Definition exn_message (e : exn) : string :=
  match e with
  | ValueError m | AddrFormatError m | TypeError m => m
  | KeyError k => k
  | IndexError | SystemExit _ => EmptyString
  end.

Fixpoint occurs_in (s msg : string) : bool :=
  String.prefix s msg ||
  match msg with
  | EmptyString => false
  | String _ msg' => occurs_in s msg'
  end.

(** The exception's message quotes the input. *)
Definition identifies (e : exn) (input : string) : bool :=
  occurs_in input (exn_message e).

Definition not_found_record (net : option string) : log_record :=
  LogRecord ERROR ("No IP address found in network: " +:+ py_str net).

Definition cidr_error (net : option string) : exn :=
  ValueError ("Network (" +:+ py_str net +:+ ") is not in CIDR presentation format").

(** ** A reference implementation of the library for IPv4

    Dotted-quad IPv4 only: an address is four decimal octets, a network is
    an address with a prefix length (given as a number, a netmask or a
    host mask; 32 when left out).  It answers what netaddr answers on
    these strings and serves to run the module on concrete inputs. *)

Module IPv4.

Fixpoint split_on (c : ascii) (s : string) : list string :=
  match s with
  | EmptyString => [EmptyString]
  | String a s' =>
      if Ascii.eqb a c then EmptyString :: split_on c s'
      else match split_on c s' with
           | w :: ws => String a w :: ws
           | [] => [String a EmptyString]
           end
  end.

Fixpoint contains (c : ascii) (s : string) : bool :=
  match s with
  | EmptyString => false
  | String a s' => Ascii.eqb a c || contains c s'
  end.

Definition digit_val (a : ascii) : option Z :=
  let n := Z.of_N (N_of_ascii a) in
  if (48 <=? n) && (n <=? 57) then Some (n - 48) else None.

Fixpoint parse_digits (s : string) (acc : Z) : option Z :=
  match s with
  | EmptyString => Some acc
  | String a s' => d ← digit_val a; parse_digits s' (acc * 10 + d)
  end.

Definition parse_dec (s : string) : option Z :=
  match s with
  | EmptyString => None
  | _ => parse_digits s 0
  end.

(** One octet: decimal, no leading zero, at most 255. *)
Definition parse_octet (s : string) : option Z :=
  match s with
  | String "0" (String _ _) => None
  | _ => v ← parse_dec s; if v <=? 255 then Some v else None
  end.

(** Four octets, most significant first, as one 32-bit number. *)
Definition pack (a b c d : Z) : Z := ((a * 256 + b) * 256 + c) * 256 + d.

Definition str_to_int (s : string) : option Z :=
  match split_on "." s with
  | [a; b; c; d] =>
      a ← parse_octet a; b ← parse_octet b; c ← parse_octet c; d ← parse_octet d;
      Some (pack a b c d)
  | _ => None
  end.

Definition digit_char (d : Z) : ascii := ascii_of_N (Z.to_N (48 + d)).

Definition print_octet (n : Z) : string :=
  if n <? 10 then String (digit_char n) EmptyString
  else if n <? 100 then String (digit_char (n / 10)) (String (digit_char (n mod 10)) EmptyString)
  else String (digit_char (n / 100))
         (String (digit_char (n / 10 mod 10)) (String (digit_char (n mod 10)) EmptyString)).

Definition int_to_str (v : Z) : string :=
  print_octet (v / 16777216) +:+ "." +:+
  print_octet (v / 65536 mod 256) +:+ "." +:+
  print_octet (v / 256 mod 256) +:+ "." +:+
  print_octet (v mod 256).

Definition width : Z := 32.
Definition max_int : Z := 2 ^ width - 1.

Record IPNetwork_obj : Type := Net { value : Z; prefixlen : Z }.

Definition hostmask_int (p : Z) : Z := Z.shiftl 1 (width - p) - 1.
Definition netmask_int (p : Z) : Z := Z.lxor max_int (hostmask_int p).

Definition first (n : IPNetwork_obj) : Z :=
  Z.land (value n) (Z.lxor max_int (hostmask_int (prefixlen n))).
Definition last (n : IPNetwork_obj) : Z :=
  Z.lor (value n) (hostmask_int (prefixlen n)).

Definition prefixes : list Z := Z.of_nat <$> seq 0 33.
Definition octets : list Z := Z.of_nat <$> seq 0 256.

Definition mask_to_prefix (m : Z) : option Z :=
  match List.find (λ p, netmask_int p =? m) prefixes with
  | Some p => Some p
  | None => List.find (λ p, hostmask_int p =? m) prefixes
  end.

Definition parse_prefix (m : string) : option Z :=
  match parse_dec m with
  | Some p => if p <=? width then Some p else None
  | None => str_to_int m ≫= mask_to_prefix
  end.

Definition parse_ip_network (s : string) : option IPNetwork_obj :=
  match split_on "/" s with
  | [a] => v ← str_to_int a; Some (Net v width)
  | [a; m] => v ← str_to_int a; p ← parse_prefix m; Some (Net v p)
  | _ => None
  end.

Definition IPAddress (s : string) : result Z :=
  if contains "/" s
  then Raise (ValueError
         "IPAddress() does not support netmasks or subnet prefixes! See documentation for details.")
  else match str_to_int s with
       | Some v => Ret v
       | None => Raise (AddrFormatError
                   ("failed to detect a valid IP address from '" +:+ s +:+ "'"))
       end.

Definition IPNetwork (v : option string) : result IPNetwork_obj :=
  match v with
  | None => Raise (TypeError "unexpected type <type 'NoneType'> for addr arg")
  | Some s =>
      match parse_ip_network s with
      | Some n => Ret n
      | None => Raise (AddrFormatError ("invalid IPNetwork " +:+ s))
      end
  end.

Definition address_in (a : Z) (n : IPNetwork_obj) : bool :=
  (first n <=? a) && (a <=? last n).

Definition network_in (c n : IPNetwork_obj) : bool :=
  (first n <=? first c) && (last c <=? last n).

End IPv4.

#[global] Instance ipv4 : NetAddr := {|
  address := Z;
  network := IPv4.IPNetwork_obj;
  IPAddress := IPv4.IPAddress;
  IPNetwork := IPv4.IPNetwork;
  address_in := IPv4.address_in;
  network_in := IPv4.network_in;
  network_ip := IPv4.value;
  address_str := IPv4.int_to_str
|}.

(** An IPv4 entry as [netifaces] reports it. *)
Definition entry (addr netmask : string) : gmap string string :=
  {[ "addr" := addr; "netmask" := netmask ]}.

(** A host with a loopback interface, [eth0] carrying two IPv4 addresses
    and [eth1] with a link-layer address only. *)
Definition demo_host : host :=
  Host ["lo"; "eth0"; "eth1"]
    (λ i, if String.eqb i "lo" then {[ AF_INET := [entry "127.0.0.1" "255.0.0.0"] ]}
          else if String.eqb i "eth0" then {[ AF_INET := [entry "192.168.1.5" "255.255.255.0"; entry "10.9.9.9" "255.0.0.0"] ]}
          else if String.eqb i "eth1" then {[ 17 := [] ]}
          else ∅).

(** [demo_host] with other aliases and other keys on the entries. *)
Definition demo_host_aliased : host :=
  Host ["lo"; "eth0"; "eth1"]
    (λ i, if String.eqb i "lo"
          then {[ AF_INET := [<[ "peer" := "127.0.0.1" ]> (entry "127.0.0.1" "255.0.0.0")];
                  10 := [entry "::1" "ffff:ffff:ffff:ffff:ffff:ffff:ffff:ffff"] ]}
          else if String.eqb i "eth0"
          then {[ AF_INET := [<[ "broadcast" := "192.168.1.255" ]>
                                (entry "192.168.1.5" "255.255.255.0");
                              entry "172.16.0.9" "255.255.0.0";
                              entry "192.168.7.7" "255.255.255.0"] ]}
          else ∅).

(** A host whose tunnel interface reports an address without a netmask,
    ahead of [eth0]. *)
Definition tunnel_host : host :=
  Host ["lo"; "tun0"; "eth0"]
    (λ i, if String.eqb i "lo" then {[ AF_INET := [entry "127.0.0.1" "255.0.0.0"] ]}
          else if String.eqb i "tun0"
          then {[ AF_INET := [ ({[ "addr" := "10.8.0.1"; "peer" := "10.8.0.2" ]}
                                 : gmap string string) ] ]}
          else if String.eqb i "eth0"
          then {[ AF_INET := [entry "192.168.1.5" "255.255.255.0"] ]}
          else ∅).

(** ** What the loops compute *)

Section Loops.
Context `{NetAddr}.

Lemma address_loop_no_inet net h iface l :
  no_inet h iface → address_loop net h (iface :: l) = address_loop net h l.
Proof. unfold no_inet. intros E. simpl. by rewrite E. Qed.

Lemma address_loop_subnet net target h iface l e cidr :
  IPNetwork net = Ret target → subnet_of h iface e cidr →
  address_loop net h (iface :: l) =
    if network_in cidr target then Ret (Some (address_str (network_ip cidr)))
    else address_loop net h l.
Proof.
  intros Ht (more & a & m & E & Ea & Em & Ec). simpl. rewrite E. simpl.
  unfold getitem. rewrite Ea, Em. simpl. rewrite Ec. simpl. by rewrite Ht.
Qed.

Lemma address_loop_outside net target h l :
  IPNetwork net = Ret target → Forall (outside h target) l →
  address_loop net h l = Ret None.
Proof.
  intros Ht. induction 1 as [|iface l [Hn | (e & c & Hs & Hc)] _ IH]; [done | |].
  - by rewrite address_loop_no_inet.
  - by rewrite (address_loop_subnet _ _ _ _ _ _ _ Ht Hs), Hc.
Qed.

Lemma address_loop_found net target h pre iface post e cidr :
  IPNetwork net = Ret target → Forall (outside h target) pre →
  subnet_of h iface e cidr → network_in cidr target = true →
  address_loop net h (pre ++ iface :: post) = Ret (Some (address_str (network_ip cidr))).
Proof.
  intros Ht Hpre Hs Hc. induction Hpre as [|j l [Hn | (e' & c & Hs' & Hc')] _ IH]; simpl app.
  - by rewrite (address_loop_subnet _ _ _ _ _ _ _ Ht Hs), Hc.
  - by rewrite address_loop_no_inet.
  - by rewrite (address_loop_subnet _ _ _ _ _ _ _ Ht Hs'), Hc'.
Qed.

(** What a run of the loop that did not raise went through. *)
Lemma address_loop_inv net target h l r :
  IPNetwork net = Ret target → address_loop net h l = Ret r →
  match r with
  | None => Forall (outside h target) l
  | Some found =>
      ∃ pre iface post e cidr,
        l = pre ++ iface :: post ∧ Forall (outside h target) pre ∧
        subnet_of h iface e cidr ∧ network_in cidr target = true ∧
        found = address_str (network_ip cidr)
  end.
Proof.
  intros Ht. induction l as [|iface l IH]; simpl.
  - intros [= <-]. constructor.
  - destruct (ifaddresses h iface !! AF_INET) as [entries|] eqn:E.
    + destruct entries as [|e more]; simpl; [done |].
      unfold getitem.
      destruct (e !! "addr") as [a|] eqn:Ea; simpl; [| done].
      destruct (e !! "netmask") as [m|] eqn:Em; simpl; [| done].
      destruct (IPNetwork (Some (a +:+ "/" +:+ m))) as [cidr|] eqn:Ec; simpl; [| done].
      rewrite Ht. simpl.
      assert (Hs : subnet_of h iface e cidr) by (exists more, a, m; done).
      destruct (network_in cidr target) eqn:Hc.
      * intros [= <-]. exists [], iface, l, e, cidr. by split_and!.
      * intros Hr. specialize (IH Hr). destruct r as [found|].
        -- destruct IH as (pre & j & post & e' & c' & -> & Hpre & Hs' & Hc' & ->).
           exists (iface :: pre), j, post, e', c'. split_and!; try done.
           constructor; [| done]. right. by exists e, cidr.
        -- constructor; [| done]. right. by exists e, cidr.
    + intros Hr. specialize (IH Hr). destruct r as [found|].
      * destruct IH as (pre & j & post & e' & c' & -> & Hpre & Hs' & Hc' & ->).
        exists (iface :: pre), j, post, e', c'. split_and!; try done.
        constructor; [| done]. by left.
      * constructor; [| done]. by left.
Qed.

End Loops.

Section Lookups.
Context `{NetAddr}.

Lemma for_address_loop_no_inet a key h iface l :
  no_inet h iface → for_address_loop a key h (iface :: l) = for_address_loop a key h l.
Proof. unfold no_inet. intros E. simpl. by rewrite E. Qed.

Lemma for_address_loop_subnet a key h iface l e cidr :
  subnet_of h iface e cidr →
  for_address_loop a key h (iface :: l) =
    if address_in a cidr
    then if String.eqb key "iface" then Ret (Some iface)
         else v ← getitem e key; Ret (Some v)
    else for_address_loop a key h l.
Proof.
  intros (more & x & m & E & Ex & Em & Ec). simpl. rewrite E. simpl.
  unfold getitem. rewrite Ex, Em. simpl. by rewrite Ec.
Qed.

Lemma for_address_loop_not_bound a key h l :
  Forall (not_bound h a) l → for_address_loop a key h l = Ret None.
Proof.
  induction 1 as [|iface l [Hn | (e & c & Hs & Hc)] _ IH]; [done | |].
  - by rewrite for_address_loop_no_inet.
  - by rewrite (for_address_loop_subnet _ _ _ _ _ _ _ Hs), Hc.
Qed.

Lemma for_address_loop_skip a key h pre l :
  Forall (not_bound h a) pre →
  for_address_loop a key h (pre ++ l) = for_address_loop a key h l.
Proof.
  induction 1 as [|iface pre [Hn | (e & c & Hs & Hc)] _ IH]; [done | |]; simpl app.
  - by rewrite for_address_loop_no_inet.
  - by rewrite (for_address_loop_subnet _ _ _ _ _ _ _ Hs), Hc.
Qed.

(** The two lookups run the same scan: on any list of interfaces they
    raise the same exception, or both find nothing, or both stop at the
    same interface. *)
Lemma for_address_loop_both a h l :
  (∃ x, for_address_loop a "iface" h l = Raise x ∧
        for_address_loop a "netmask" h l = Raise x) ∨
  (Forall (not_bound h a) l ∧
   for_address_loop a "iface" h l = Ret None ∧
   for_address_loop a "netmask" h l = Ret None) ∨
  (∃ pre iface post e cidr m,
     l = pre ++ iface :: post ∧ Forall (not_bound h a) pre ∧
     subnet_of h iface e cidr ∧ address_in a cidr = true ∧
     e !! "netmask" = Some m ∧
     for_address_loop a "iface" h l = Ret (Some iface) ∧
     for_address_loop a "netmask" h l = Ret (Some m)).
Proof.
  induction l as [|iface l IH].
  - right. left. by split_and!.
  - assert (Hskip : not_bound h a iface →
      for_address_loop a "iface" h (iface :: l) = for_address_loop a "iface" h l ∧
      for_address_loop a "netmask" h (iface :: l) = for_address_loop a "netmask" h l).
    { intros Hnb. split; apply (for_address_loop_skip _ _ _ [iface]); by constructor. }
    match goal with
    | |- ?G => assert (Hnext : not_bound h a iface → G)
    end.
    { intros Hnb. destruct (Hskip Hnb) as [-> ->].
      destruct IH as [(x & ? & ?) | [(Hl & ? & ?) | (pre & j & post & e & c & m & -> & Hpre & ?)]].
      - left. by exists x.
      - right. left. split_and!; try done. by constructor.
      - right. right. exists (iface :: pre), j, post, e, c, m.
        split_and!; try tauto. by constructor. }
    destruct (ifaddresses h iface !! AF_INET) as [entries|] eqn:E; [| apply Hnext; by left].
    destruct entries as [|e more].
    { left. exists IndexError. simpl. by rewrite E. }
    destruct (e !! "addr") as [x|] eqn:Ex.
    2: { left. exists (KeyError "addr"). simpl. rewrite E. simpl. unfold getitem. by rewrite Ex. }
    destruct (e !! "netmask") as [m|] eqn:Em.
    2: { left. exists (KeyError "netmask"). simpl. rewrite E. simpl. unfold getitem.
         by rewrite Ex, Em. }
    destruct (IPNetwork (Some (x +:+ "/" +:+ m))) as [cidr|err] eqn:Ec.
    2: { left. exists err. simpl. rewrite E. simpl. unfold getitem. rewrite Ex, Em. simpl.
         by rewrite Ec. }
    assert (Hs : subnet_of h iface e cidr) by (exists more, x, m; done).
    destruct (address_in a cidr) eqn:Hc.
    + right. right. exists [], iface, l, e, cidr, m.
      rewrite !(for_address_loop_subnet _ _ _ _ _ _ _ Hs), Hc. simpl.
      unfold getitem. rewrite Em. by split_and!.
    + apply Hnext. right. by exists e, cidr.
Qed.

End Lookups.

Lemma prefix_append s t : String.prefix s (s +:+ t) = true.
Proof.
  induction s as [|a s IH]; simpl; [by destruct t |].
  by destruct (ascii_dec a a).
Qed.

Lemma occurs_in_prefix s msg : String.prefix s msg = true → occurs_in s msg = true.
Proof. intros E. destruct msg; simpl in *; by rewrite E. Qed.

Lemma occurs_in_append pre s post : occurs_in s (pre +:+ s +:+ post) = true.
Proof.
  induction pre as [|a pre IH].
  - change (occurs_in s (s +:+ post) = true).
    apply occurs_in_prefix, prefix_append.
  - change (occurs_in s (String a (pre +:+ s +:+ post)) = true).
    simpl. rewrite IH. apply orb_true_r.
Qed.

(** ** The resolver's contract *)

Section Contract.
Context `{NetAddr}.

(** With a network that parses, the call is the scan followed by the
    fallback, the fatal exit or [None]. *)
Lemma get_address_in_network_scan n target fb fatal h :
  IPNetwork (Some n) = Ret target →
  get_address_in_network (Some n) fb fatal h =
    match address_loop (Some n) h (interfaces h) with
    | Raise e => IO [] (Raise e)
    | Ret (Some a) => IO [] (Ret (Some a))
    | Ret None =>
        match fb with
        | Some f => IO [] (Ret (Some f))
        | None => if fatal then IO [not_found_record (Some n)] (Raise (SystemExit 1))
                  else IO [] (Ret None)
        end
    end.
Proof.
  intros Ht. unfold get_address_in_network, _validate_cidr. rewrite Ht.
  destruct (address_loop (Some n) h (interfaces h)) as [[a|]|e]; try done.
  destruct fb; [done |]. by destruct fatal.
Qed.

(** What the call does when the network does not parse. *)
Lemma get_address_in_network_invalid n e fb fatal h :
  IPNetwork (Some n) = Raise e →
  get_address_in_network (Some n) fb fatal h =
    IO [] (Raise (if is_format_error e then cidr_error (Some n) else e)).
Proof.
  intros He. unfold get_address_in_network, _validate_cidr. rewrite He.
  simpl. by destruct (is_format_error e).
Qed.

(** C1, at the input the claim is about: with no network, no fallback and
    [fatal] off, nothing returns before [_validate_cidr(None)] is reached;
    whatever the library raises on [None] leaves the call (turned into the
    module's [ValueError] when it is a format error), so the call does not
    return [None]. *)
Theorem get_address_in_network_none_raises (h : host) (e : exn) :
  IPNetwork None = Raise e →
  get_address_in_network None None false h =
    IO [] (Raise (if is_format_error e then cidr_error None else e)) ∧
  outcome (get_address_in_network None None false h) ≠ Ret None.
Proof.
  intros He. unfold get_address_in_network, _validate_cidr. rewrite He. simpl.
  by destruct (is_format_error e).
Qed.

(** C2: for a network that parses, the scan goes through the interfaces in
    the order [netifaces.interfaces()] lists them, looks at the first IPv4
    entry of each, and the call returns the address of the first such entry
    whose network lies inside the target; and an address that is returned
    without a fallback being set is that one. *)
Theorem get_address_in_network_first_match (n : string) (target : network)
    (fb : option string) (fatal : bool) (h : host) :
  IPNetwork (Some n) = Ret target →
  (∀ pre iface post e cidr,
     interfaces h = pre ++ iface :: post →
     Forall (outside h target) pre →
     subnet_of h iface e cidr →
     network_in cidr target = true →
     get_address_in_network (Some n) fb fatal h =
       IO [] (Ret (Some (address_str (network_ip cidr))))) ∧
  (∀ found,
     outcome (get_address_in_network (Some n) None fatal h) = Ret (Some found) →
     ∃ pre iface post e cidr,
       interfaces h = pre ++ iface :: post ∧
       Forall (outside h target) pre ∧
       subnet_of h iface e cidr ∧
       network_in cidr target = true ∧
       found = address_str (network_ip cidr)).
Proof.
  intros Ht. split.
  - intros pre iface post e cidr Hi Hpre Hs Hc.
    rewrite (get_address_in_network_scan _ _ _ _ _ Ht), Hi.
    by rewrite (address_loop_found _ _ _ _ _ _ _ _ Ht Hpre Hs Hc).
  - intros found. rewrite (get_address_in_network_scan _ _ _ _ _ Ht).
    destruct (address_loop (Some n) h (interfaces h)) as [[a|]|e] eqn:El; simpl.
    + intros [= ->]. apply (address_loop_inv _ _ _ _ _ Ht El).
    + by destruct fatal.
    + done.
Qed.

(** C3: a network string the library rejects with a format error makes
    both [is_address_in_network] and [get_address_in_network] raise the
    module's [ValueError], whose message quotes the string; the other
    arguments play no part. *)
Theorem malformed_cidr_raises (s : string) (e : exn) :
  IPNetwork (Some s) = Raise e → is_format_error e = true →
  identifies (cidr_error (Some s)) s = true ∧
  (∀ a, is_address_in_network s a = Raise (cidr_error (Some s))) ∧
  (∀ fb fatal h,
     get_address_in_network (Some s) fb fatal h = IO [] (Raise (cidr_error (Some s)))).
Proof.
  intros He Hf. split_and!.
  - apply (occurs_in_append "Network (" s).
  - intros a. unfold is_address_in_network. rewrite He. simpl. by rewrite Hf.
  - intros fb fatal h. by rewrite (get_address_in_network_invalid _ _ _ _ _ He), Hf.
Qed.

(** C6: without a network, a fallback that is set is returned: no log, no
    look at the interfaces, whatever [fatal] is. *)
Theorem get_address_in_network_none_fallback (fb : string) (fatal : bool) (h : host) :
  get_address_in_network None (Some fb) fatal h = IO [] (Ret (Some fb)).
Proof. reflexivity. Qed.

(** C7: for an address that parses, when the scan passes over every
    interface (no IPv4 entry, or the first entry's network does not hold
    the address) both lookups return [None]; when an interface's first
    entry holds it, and the ones before are passed over, they return its
    name and the entry's netmask. *)
Theorem lookups_for_address (s : string) (a : address) (h : host) :
  IPAddress s = Ret a →
  (Forall (not_bound h a) (interfaces h) →
     get_iface_for_address s h = Ret None ∧
     get_netmask_for_address s h = Ret None) ∧
  (∀ pre iface post e cidr m,
     interfaces h = pre ++ iface :: post →
     Forall (not_bound h a) pre →
     subnet_of h iface e cidr →
     address_in a cidr = true →
     e !! "netmask" = Some m →
     get_iface_for_address s h = Ret (Some iface) ∧
     get_netmask_for_address s h = Ret (Some m)).
Proof.
  intros Ha. unfold get_iface_for_address, get_netmask_for_address, _get_for_address.
  rewrite Ha. simpl. split.
  - intros Hall. by rewrite !for_address_loop_not_bound.
  - intros pre iface post e cidr m -> Hpre Hs Hc Hm.
    rewrite !(for_address_loop_skip _ _ _ _ _ Hpre).
    rewrite !(for_address_loop_subnet _ _ _ _ _ _ _ Hs), Hc. simpl.
    unfold getitem. by rewrite Hm.
Qed.

(** An address string the library rejects makes both lookups raise the
    library's own exception, unchanged: [_get_for_address] has no [try]
    around [netaddr.IPAddress]. *)
Lemma lookups_pass_library_error (s : string) (e : exn) (h : host) :
  IPAddress s = Raise e →
  get_iface_for_address s h = Raise e ∧ get_netmask_for_address s h = Raise e.
Proof.
  intros He. unfold get_iface_for_address, get_netmask_for_address, _get_for_address.
  by rewrite He.
Qed.

(** C10: the two lookups agree.  One returns [None] exactly when the other
    does, and when both return a value, the name and the netmask belong to
    one interface: the first in the enumeration whose first IPv4 entry
    holds the address. *)
Theorem lookups_agree (s : string) (h : host) :
  (get_iface_for_address s h = Ret None ↔ get_netmask_for_address s h = Ret None) ∧
  (∀ name mask,
     get_iface_for_address s h = Ret (Some name) →
     get_netmask_for_address s h = Ret (Some mask) →
     ∃ a pre post e cidr,
       IPAddress s = Ret a ∧
       interfaces h = pre ++ name :: post ∧
       Forall (not_bound h a) pre ∧
       subnet_of h name e cidr ∧
       address_in a cidr = true ∧
       e !! "netmask" = Some mask).
Proof.
  unfold get_iface_for_address, get_netmask_for_address, _get_for_address.
  destruct (IPAddress s) as [a|x]; simpl; [| by split].
  destruct (for_address_loop_both a h (interfaces h))
    as [(x & -> & ->) | [(_ & -> & ->) | (pre & j & post & e & c & m & Hi & Hpre & Hs & Hc & Hm & -> & ->)]].
  - by split.
  - by split.
  - split; [by split |]. intros name mask [= <-] [= <-]. by exists a, pre, post, e, c.
Qed.

End Contract.

(** ** The reference implementation is lawful *)

Module IPv4Facts.
Import IPv4.

Lemma octets_range o : 0 ≤ o ≤ 255 → o ∈ octets.
Proof.
  intros Ho. unfold octets. apply list_elem_of_fmap. exists (Z.to_nat o).
  split; [lia |]. apply list_elem_of_In, in_seq. lia.
Qed.

Lemma octets_all (P : Z → bool) :
  forallb P octets = true → ∀ o, 0 ≤ o ≤ 255 → P o = true.
Proof.
  intros HP o Ho. rewrite forallb_forall in HP. apply HP.
  apply list_elem_of_In, octets_range, Ho.
Qed.

Lemma parse_print_octet o : 0 ≤ o ≤ 255 → parse_octet (print_octet o) = Some o.
Proof.
  intros Ho.
  pose proof (octets_all (λ o, bool_decide (parse_octet (print_octet o) = Some o))) as HP.
  specialize (HP ltac:(by vm_compute) o Ho). simpl in HP.
  by apply bool_decide_eq_true in HP.
Qed.

Lemma print_octet_plain c o :
  c = "."%char ∨ c = "/"%char → 0 ≤ o ≤ 255 → contains c (print_octet o) = false.
Proof.
  intros [-> | ->] Ho; apply negb_true_iff.
  - exact (octets_all (λ o, negb (contains "." (print_octet o))) ltac:(by vm_compute) o Ho).
  - exact (octets_all (λ o, negb (contains "/" (print_octet o))) ltac:(by vm_compute) o Ho).
Qed.

Lemma contains_append c s t : contains c (s +:+ t) = contains c s || contains c t.
Proof.
  induction s as [|a s IH]; [done |].
  change (contains c (String a (s +:+ t)) = contains c (String a s) || contains c t).
  simpl. rewrite IH. apply orb_assoc.
Qed.

Lemma split_on_plain c s : contains c s = false → split_on c s = [s].
Proof.
  induction s as [|a s IH]; simpl; [done |].
  intros [Ha Hs]%orb_false_iff. by rewrite Ha, (IH Hs).
Qed.

Lemma split_on_append c s t :
  contains c s = false → split_on c (s +:+ String c t) = s :: split_on c t.
Proof.
  induction s as [|a s IH]; intros Hs.
  - change (split_on c (String c t) = EmptyString :: split_on c t). simpl.
    by rewrite Ascii.eqb_refl.
  - change (split_on c (String a (s +:+ String c t)) = String a s :: split_on c t).
    simpl in *. apply orb_false_iff in Hs as [Ha Hs]. by rewrite Ha, (IH Hs).
Qed.

Lemma split_on_dot s t :
  contains "." s = false → split_on "." (s +:+ "." +:+ t) = s :: split_on "." t.
Proof. apply (split_on_append "." s t). Qed.

Lemma digit_val_range a d : digit_val a = Some d → 0 ≤ d ≤ 9.
Proof.
  unfold digit_val.
  destruct (48 <=? Z.of_N (N_of_ascii a)) eqn:E1; [| done].
  destruct (Z.of_N (N_of_ascii a) <=? 57) eqn:E2; [| done].
  intros [= <-]. lia.
Qed.

Lemma parse_digits_lower s acc v : parse_digits s acc = Some v → 0 ≤ acc → acc ≤ v.
Proof.
  revert acc. induction s as [|a s IH]; simpl; intros acc.
  - intros [= <-]. lia.
  - destruct (digit_val a) as [d|] eqn:Ed; [| done]. simpl.
    apply digit_val_range in Ed. intros Hv Hacc. apply IH in Hv; lia.
Qed.

Lemma parse_dec_nonneg s v : parse_dec s = Some v → 0 ≤ v.
Proof.
  destruct s; [done |]. unfold parse_dec. intros Hv.
  by apply parse_digits_lower in Hv.
Qed.

Lemma parse_octet_range s o : parse_octet s = Some o → 0 ≤ o ≤ 255.
Proof.
  assert (Hd : (v ← parse_dec s; if v <=? 255 then Some v else None) = Some o →
               0 ≤ o ≤ 255).
  { destruct (parse_dec s) as [v|] eqn:Ev; [| done]. simpl.
    destruct (v <=? 255) eqn:E; [| done]. intros [= <-].
    apply parse_dec_nonneg in Ev. lia. }
  unfold parse_octet. repeat case_match; done || apply Hd.
Qed.

Lemma str_to_int_inv s v :
  str_to_int s = Some v →
  ∃ a b c d, (0 ≤ a ≤ 255 ∧ 0 ≤ b ≤ 255 ∧ 0 ≤ c ≤ 255 ∧ 0 ≤ d ≤ 255) ∧ v = pack a b c d.
Proof.
  unfold str_to_int.
  destruct (split_on "." s) as [|sa [|sb [|sc [|sd [|]]]]]; try done.
  destruct (parse_octet sa) as [a|] eqn:Ea; [| done].
  destruct (parse_octet sb) as [b|] eqn:Eb; [| done].
  destruct (parse_octet sc) as [c|] eqn:Ec; [| done].
  destruct (parse_octet sd) as [d|] eqn:Ed; [| done].
  simpl. intros [= <-]. exists a, b, c, d.
  by repeat split; eapply parse_octet_range.
Qed.

Lemma int_to_str_pack a b c d :
  0 ≤ a ≤ 255 → 0 ≤ b ≤ 255 → 0 ≤ c ≤ 255 → 0 ≤ d ≤ 255 →
  int_to_str (pack a b c d) =
    print_octet a +:+ "." +:+ print_octet b +:+ "." +:+
    print_octet c +:+ "." +:+ print_octet d.
Proof.
  intros Ha Hb Hc Hd. unfold int_to_str, pack.
  replace ((((a * 256 + b) * 256 + c) * 256 + d) / 16777216) with a
    by (apply Z.div_unique with (((b * 256) + c) * 256 + d); lia).
  replace ((((a * 256 + b) * 256 + c) * 256 + d) / 65536 mod 256) with b.
  2: { replace ((((a * 256 + b) * 256 + c) * 256 + d) / 65536) with (a * 256 + b)
         by (apply Z.div_unique with (c * 256 + d); lia).
       apply Z.mod_unique with a; lia. }
  replace ((((a * 256 + b) * 256 + c) * 256 + d) / 256 mod 256) with c.
  2: { replace ((((a * 256 + b) * 256 + c) * 256 + d) / 256) with ((a * 256 + b) * 256 + c)
         by (apply Z.div_unique with d; lia).
       apply Z.mod_unique with (a * 256 + b); lia. }
  replace ((((a * 256 + b) * 256 + c) * 256 + d) mod 256) with d
    by (apply Z.mod_unique with ((a * 256 + b) * 256 + c); lia).
  done.
Qed.

Lemma str_to_int_dotted a b c d :
  0 ≤ a ≤ 255 → 0 ≤ b ≤ 255 → 0 ≤ c ≤ 255 → 0 ≤ d ≤ 255 →
  str_to_int (print_octet a +:+ "." +:+ print_octet b +:+ "." +:+
              print_octet c +:+ "." +:+ print_octet d) = Some (pack a b c d).
Proof.
  intros Ha Hb Hc Hd. unfold str_to_int.
  rewrite !split_on_dot, split_on_plain by (apply print_octet_plain; auto).
  by rewrite !parse_print_octet.
Qed.

Lemma dotted_no_slash a b c d :
  0 ≤ a ≤ 255 → 0 ≤ b ≤ 255 → 0 ≤ c ≤ 255 → 0 ≤ d ≤ 255 →
  contains "/" (print_octet a +:+ "." +:+ print_octet b +:+ "." +:+
                print_octet c +:+ "." +:+ print_octet d) = false.
Proof.
  intros Ha Hb Hc Hd.
  rewrite !contains_append, !print_octet_plain by auto. done.
Qed.

(** A parsed address prints to a string that parses back to it. *)
Lemma IPAddress_int_to_str s v :
  str_to_int s = Some v → IPAddress (int_to_str v) = Ret v.
Proof.
  intros (a & b & c & d & (Ha & Hb & Hc & Hd) & ->)%str_to_int_inv.
  unfold IPAddress.
  by rewrite int_to_str_pack, dotted_no_slash, str_to_int_dotted.
Qed.

Lemma land_le v x : 0 ≤ v → Z.land v x ≤ v.
Proof.
  intros Hv.
  assert (Hsum : Z.ldiff v x + Z.land v x = v).
  { rewrite <- Z.add_lor_land, Z.lor_ldiff_and.
    rewrite (Z.land_comm v x), Z.land_assoc, Z.land_ldiff, Z.land_0_l. lia. }
  assert (0 ≤ Z.ldiff v x) by (apply Z.ldiff_nonneg; auto).
  lia.
Qed.

Lemma le_lor v m : 0 ≤ m → v ≤ Z.lor v m.
Proof.
  intros Hm. pose proof (Z.add_lor_land v m).
  pose proof (land_le m v Hm) as Hle. rewrite Z.land_comm in Hle. lia.
Qed.

Lemma hostmask_nonneg p : p ≤ width → 0 ≤ hostmask_int p.
Proof.
  intros Hp. unfold hostmask_int. rewrite Z.shiftl_1_l.
  assert (0 < 2 ^ (width - p)) by (apply Z.pow_pos_nonneg; lia). lia.
Qed.

Lemma first_le_value n : 0 ≤ value n → first n ≤ value n.
Proof. apply land_le. Qed.

Lemma value_le_last n : prefixlen n ≤ width → value n ≤ last n.
Proof. intros Hp. by apply le_lor, hostmask_nonneg. Qed.

Lemma prefixes_range p : In p prefixes → 0 ≤ p ≤ width.
Proof.
  intros Hp. apply list_elem_of_In in Hp. unfold prefixes in Hp.
  apply list_elem_of_fmap in Hp as (k & -> & Hk).
  apply list_elem_of_In, in_seq in Hk. unfold width. lia.
Qed.

Lemma find_prefixes_range f p : List.find f prefixes = Some p → 0 ≤ p ≤ width.
Proof. intros [Hp _]%find_some. by apply prefixes_range. Qed.

Lemma mask_to_prefix_range m p : mask_to_prefix m = Some p → 0 ≤ p ≤ width.
Proof.
  unfold mask_to_prefix.
  pose proof (find_prefixes_range (λ p, netmask_int p =? m)) as Hn.
  pose proof (find_prefixes_range (λ p, hostmask_int p =? m)) as Hh.
  revert Hn Hh.
  generalize (List.find (λ p, netmask_int p =? m) prefixes).
  generalize (List.find (λ p, hostmask_int p =? m) prefixes).
  intros oh [q|] Hn Hh E.
  - apply Hn. by rewrite E.
  - by apply Hh.
Qed.

Lemma parse_prefix_range m p : parse_prefix m = Some p → 0 ≤ p ≤ width.
Proof.
  unfold parse_prefix. destruct (parse_dec m) as [q|] eqn:E.
  - destruct (q <=? width) eqn:Hq; [| done]. intros [= <-].
    apply parse_dec_nonneg in E. lia.
  - destruct (str_to_int m) as [v|]; [| done]. simpl. apply mask_to_prefix_range.
Qed.

(** What a parsed network is made of. *)
Lemma parse_ip_network_inv s n :
  parse_ip_network s = Some n →
  (∃ a, str_to_int a = Some (value n)) ∧ 0 ≤ prefixlen n ≤ width.
Proof.
  unfold parse_ip_network.
  destruct (split_on "/" s) as [|a [|m [|]]]; try done.
  - destruct (str_to_int a) as [v|] eqn:Ea; [| done]. simpl. intros [= <-].
    split; [by exists a |]. simpl. unfold width. lia.
  - destruct (str_to_int a) as [v|] eqn:Ea; [| done]. simpl.
    destruct (parse_prefix m) as [p|] eqn:Ep; [| done]. simpl. intros [= <-].
    split; [by exists a |]. by apply parse_prefix_range with m.
Qed.

Lemma IPNetwork_inv s n :
  IPNetwork (Some s) = Ret n →
  (∃ a, str_to_int a = Some (value n)) ∧ 0 ≤ prefixlen n ≤ width.
Proof.
  unfold IPNetwork. destruct (parse_ip_network s) as [c|] eqn:E; [| done].
  intros [= <-]. by apply parse_ip_network_inv in E.
Qed.

Lemma str_to_int_nonneg a v : str_to_int a = Some v → 0 ≤ v.
Proof.
  intros (o1 & o2 & o3 & o4 & (? & ? & ? & ?) & ->)%str_to_int_inv. unfold pack. lia.
Qed.

End IPv4Facts.

#[global] Instance ipv4_laws : @NetAddrLaws ipv4.
Proof.
  split; simpl.
  - intros s c [[a Ha] _]%IPv4Facts.IPNetwork_inv.
    by apply IPv4Facts.IPAddress_int_to_str with a.
  - intros s t c n [[a Ha] Hp]%IPv4Facts.IPNetwork_inv _.
    unfold IPv4.network_in, IPv4.address_in.
    intros [H1 H2]%andb_true_iff. apply Z.leb_le in H1, H2.
    apply IPv4Facts.str_to_int_nonneg in Ha.
    pose proof (IPv4Facts.first_le_value c Ha).
    pose proof (IPv4Facts.value_le_last c (proj2 Hp)).
    apply andb_true_iff. split; apply Z.leb_le; lia.
  - intros [s|] code; unfold IPv4.IPNetwork; [| done]. by case_match.
  - intros s code. unfold IPv4.IPAddress. by repeat case_match.
Qed.

(** ** The fatal exit and the round trip *)

Section Lawful.
Context `{NetAddrLaws}.

Lemma address_loop_no_exit net h l code :
  address_loop net h l ≠ Raise (SystemExit code).
Proof.
  induction l as [|iface l IH]; simpl; [done |].
  destruct (ifaddresses h iface !! AF_INET) as [[|e more]|]; simpl; try done.
  unfold getitem.
  destruct (e !! "addr") as [a|]; simpl; [| done].
  destruct (e !! "netmask") as [m|]; simpl; [| done].
  destruct (IPNetwork (Some (a +:+ "/" +:+ m))) as [cidr|x] eqn:Ec; simpl.
  2: { intros [= ->]. by apply IPNetwork_no_exit in Ec. }
  destruct (IPNetwork net) as [target|x] eqn:Et; simpl.
  2: { intros [= ->]. by apply IPNetwork_no_exit in Et. }
  by destruct (network_in cidr target).
Qed.

Lemma for_address_loop_no_exit a key h l code :
  for_address_loop a key h l ≠ Raise (SystemExit code).
Proof.
  induction l as [|iface l IH]; simpl; [done |].
  destruct (ifaddresses h iface !! AF_INET) as [[|e more]|]; simpl; try done.
  unfold getitem.
  destruct (e !! "addr") as [x|]; simpl; [| done].
  destruct (e !! "netmask") as [m|]; simpl; [| done].
  destruct (IPNetwork (Some (x +:+ "/" +:+ m))) as [cidr|err] eqn:Ec; simpl.
  2: { intros [= ->]. by apply IPNetwork_no_exit in Ec. }
  destruct (address_in a cidr); [| done].
  destruct (String.eqb key "iface"); [done |].
  by destruct (e !! key).
Qed.

Lemma try_except_no_exit {A} (body : result A) handler code :
  body ≠ Raise (SystemExit code) → handler ≠ SystemExit code →
  try_except body handler ≠ Raise (SystemExit code).
Proof.
  unfold try_except. destruct body as [a|e]; [done |].
  destruct (is_format_error e) eqn:E; congruence.
Qed.

(** The fatal exit is taken when [fatal] is set, no fallback is given and
    either no network is given or the scan ends without a match: one
    [ERROR] record is logged and the process exits with code 1. *)
Lemma fatal_exit_taken net h :
  net = None ∨
    (∃ target, IPNetwork net = Ret target ∧
               address_loop net h (interfaces h) = Ret None) →
  get_address_in_network net None true h =
    IO [not_found_record net] (Raise (SystemExit 1)).
Proof.
  intros [-> | (target & Ht & Hl)]; [done |].
  destruct net as [n|].
  - by rewrite (get_address_in_network_scan _ _ _ _ _ Ht), Hl.
  - done.
Qed.

(** The exit happens in no other situation. *)
Lemma fatal_exit_only net fb fatal h code :
  outcome (get_address_in_network net fb fatal h) = Raise (SystemExit code) →
  fatal = true ∧ fb = None ∧ code = 1 ∧
  output (get_address_in_network net fb fatal h) = [not_found_record net] ∧
  (net = None ∨
   ∃ target, IPNetwork net = Ret target ∧
             address_loop net h (interfaces h) = Ret None).
Proof.
  destruct net as [n|].
  - destruct (IPNetwork (Some n)) as [target|e] eqn:Ht.
    + rewrite (get_address_in_network_scan _ _ _ _ _ Ht).
      destruct (address_loop (Some n) h (interfaces h)) as [[a|]|e] eqn:El; simpl.
      * done.
      * destruct fb; [done |]. destruct fatal; [| done]. simpl. intros [= <-].
        split_and!; try done. right. by exists target.
      * intros [= ->]. by apply address_loop_no_exit in El.
    + rewrite (get_address_in_network_invalid _ _ _ _ _ Ht). simpl.
      destruct (is_format_error e) eqn:E; [done |].
      intros [= ->]. by apply IPNetwork_no_exit in Ht.
  - destruct fb; [done |]. destruct fatal.
    + simpl. intros [= <-]. split_and!; try done. by left.
    + unfold get_address_in_network, _validate_cidr.
      destruct (IPNetwork None) as [target|e] eqn:Ht; simpl.
      * destruct (address_loop None h (interfaces h)) as [[a|]|e] eqn:El; simpl; try done.
        intros [= ->]. by apply address_loop_no_exit in El.
      * destruct (is_format_error e) eqn:E; [done |].
        intros [= ->]. by apply IPNetwork_no_exit in Ht.
Qed.

(** The other operations never end the process. *)
Lemma other_operations_no_exit s t h code :
  is_address_in_network s t ≠ Raise (SystemExit code) ∧
  get_iface_for_address s h ≠ Raise (SystemExit code) ∧
  get_netmask_for_address s h ≠ Raise (SystemExit code).
Proof.
  split_and!.
  - unfold is_address_in_network.
    destruct (try_except (IPNetwork (Some s)) _) as [n|e] eqn:En; simpl.
    + destruct (try_except (IPAddress t) _) as [a|e] eqn:Ea; simpl.
      * by destruct (address_in a n).
      * intros [= ->]. revert Ea. apply try_except_no_exit; [apply IPAddress_no_exit | done].
    + intros [= ->]. revert En. apply try_except_no_exit; [apply IPNetwork_no_exit | done].
  - unfold get_iface_for_address, _get_for_address.
    destruct (IPAddress s) as [a|e] eqn:Ea; simpl.
    + apply for_address_loop_no_exit.
    + intros [= ->]. by apply IPAddress_no_exit in Ea.
  - unfold get_netmask_for_address, _get_for_address.
    destruct (IPAddress s) as [a|e] eqn:Ea; simpl.
    + apply for_address_loop_no_exit.
    + intros [= ->]. by apply IPAddress_no_exit in Ea.
Qed.

(** A scan that ends without a match, with no fallback and [fatal] off,
    returns [None] and logs nothing. *)
Lemma no_match_returns_none n target h :
  IPNetwork (Some n) = Ret target → Forall (outside h target) (interfaces h) →
  get_address_in_network (Some n) None false h = IO [] (Ret None).
Proof.
  intros Ht Hall. rewrite (get_address_in_network_scan _ _ _ _ _ Ht).
  by rewrite (address_loop_outside _ _ _ _ Ht Hall).
Qed.

(** C5, at the input where the code leaves the claim: with no network, no
    fallback and [fatal] off, which is a case of nothing found, the call
    neither returns [None] nor is it the fatal exit; the library's
    exception for [None] leaves the call and nothing is logged. *)
Theorem not_found_without_network_raises (h : host) (e : exn) :
  IPNetwork None = Raise e →
  output (get_address_in_network None None false h) = [] ∧
  outcome (get_address_in_network None None false h) ≠ Ret None ∧
  (∀ code, outcome (get_address_in_network None None false h) ≠ Raise (SystemExit code)).
Proof.
  intros He. unfold get_address_in_network, _validate_cidr. rewrite He. simpl.
  destruct (is_format_error e) eqn:E; simpl; [by split_and! |].
  split_and!; try done.
  intros code [= ->]. by apply IPNetwork_no_exit in He.
Qed.

(** C9: for a network that parses, an address that
    [get_address_in_network] returns from its scan (it differs from the
    fallback, or the loop produced it) is in the network according to
    [is_address_in_network]. *)
Theorem scanned_address_is_in_network (n : string) (target : network)
    (fb : option string) (fatal : bool) (h : host) (found : string) :
  IPNetwork (Some n) = Ret target →
  outcome (get_address_in_network (Some n) fb fatal h) = Ret (Some found) →
  fb ≠ Some found ∨ address_loop (Some n) h (interfaces h) = Ret (Some found) →
  is_address_in_network n found = Ret true.
Proof.
  intros Ht. rewrite (get_address_in_network_scan _ _ _ _ _ Ht).
  destruct (address_loop (Some n) h (interfaces h)) as [[a|]|e] eqn:El; simpl.
  - intros [= ->] _.
    destruct (address_loop_inv _ _ _ _ _ Ht El)
      as (pre & iface & post & e & cidr & _ & _ & (more & x & m & _ & _ & _ & Ec) & Hc & ->).
    unfold is_address_in_network. rewrite Ht. simpl.
    rewrite (address_str_parses _ _ Ec). simpl.
    by rewrite (network_in_address_in _ _ _ _ Ec Ht Hc).
  - destruct fb as [f|]; simpl.
    + intros [= ->] [? | ?]; done.
    + by destruct fatal.
  - done.
Qed.

End Lawful.

(** C4: when both strings parse, [is_address_in_network] returns the
    library's answer to [address in network], as [True] or [False]; an
    address the library rejects raises the module's [ValueError] quoting
    it.  On 192.168.1.0/24 the call gives [True] for 192.168.1.5 and
    [False] for 10.0.0.5. *)
Theorem is_address_in_network_containment :
  (∀ (L : NetAddr) (n a : string) (net : network) (ip : address),
     IPNetwork (Some n) = Ret net → IPAddress a = Ret ip →
     is_address_in_network n a = Ret (address_in ip net)) ∧
  (∀ (L : NetAddr) (n a : string) (net : network) (e : exn),
     IPNetwork (Some n) = Ret net → IPAddress a = Raise e → is_format_error e = true →
     is_address_in_network n a =
       Raise (ValueError ("Address (" +:+ a +:+ ") is not in correct presentation format"))) ∧
  is_address_in_network (H := ipv4) "192.168.1.0/24" "192.168.1.5" = Ret true ∧
  is_address_in_network (H := ipv4) "192.168.1.0/24" "10.0.0.5" = Ret false.
Proof.
  split_and!.
  - intros L n a net ip Hn Ha. unfold is_address_in_network. rewrite Hn, Ha. simpl.
    by destruct (address_in ip net).
  - intros L n a net e Hn Ha He. unfold is_address_in_network. rewrite Hn, Ha. simpl.
    by rewrite He.
  - by vm_compute.
  - by vm_compute.
Qed.

(** C8, at the inputs where the code leaves the claim: [_get_for_address]
    calls [netaddr.IPAddress] with no [try] around it, so an address the
    library rejects leaves both lookups as the library's exception, where
    [is_address_in_network] turns the same rejection into its own
    [ValueError] quoting the address.  On 10.0.0.5/8 the lookups raise
    the library's [ValueError], whose message does not quote the input;
    [is_address_in_network] raises one that does. *)
Theorem lookups_leave_address_error_unwrapped :
  (∀ (L : NetAddr) (s : string) (e : exn) (h : host),
     IPAddress s = Raise e →
     get_iface_for_address s h = Raise e ∧
     get_netmask_for_address s h = Raise e ∧
     (is_format_error e = true →
      ∀ net n, IPNetwork (Some net) = Ret n →
        is_address_in_network net s =
          Raise (ValueError
                   ("Address (" +:+ s +:+ ") is not in correct presentation format")) ∧
        identifies
          (ValueError ("Address (" +:+ s +:+ ") is not in correct presentation format"))
          s = true)) ∧
  (get_iface_for_address (H := ipv4) "10.0.0.5/8" demo_host =
     Raise (ValueError
       "IPAddress() does not support netmasks or subnet prefixes! See documentation for details.") ∧
   get_netmask_for_address (H := ipv4) "10.0.0.5/8" demo_host =
     Raise (ValueError
       "IPAddress() does not support netmasks or subnet prefixes! See documentation for details.") ∧
   identifies (ValueError
       "IPAddress() does not support netmasks or subnet prefixes! See documentation for details.")
     "10.0.0.5/8" = false ∧
   is_address_in_network (H := ipv4) "192.168.1.0/24" "10.0.0.5/8" =
     Raise (ValueError "Address (10.0.0.5/8) is not in correct presentation format")).
Proof.
  split.
  - intros L s e h He.
    destruct (lookups_pass_library_error s e h He) as [Hi Hm].
    split_and!; [done | done |].
    intros Hf net n Hn. split.
    + unfold is_address_in_network. rewrite Hn, He. simpl. by rewrite Hf.
    + apply (occurs_in_append "Address (" s).
  - by vm_compute.
Qed.

(** ** The contract on a concrete host

    [demo_host] has a loopback interface, [eth0] with two IPv4 entries
    and [eth1] with none; the library is the IPv4 reference
    implementation. *)

Lemma demo_lo_subnet :
  subnet_of (H := ipv4) demo_host "lo" (entry "127.0.0.1" "255.0.0.0")
    (IPv4.Net 2130706433 8).
Proof. exists [], "127.0.0.1", "255.0.0.0". by vm_compute. Defined.

Lemma demo_eth0_subnet :
  subnet_of (H := ipv4) demo_host "eth0" (entry "192.168.1.5" "255.255.255.0")
    (IPv4.Net 3232235781 24).
Proof.
  exists [entry "10.9.9.9" "255.0.0.0"], "192.168.1.5", "255.255.255.0". by vm_compute.
Defined.

Lemma demo_eth1_no_inet : no_inet demo_host "eth1".
Proof. by vm_compute. Defined.

Lemma get_address_in_network_none_raises_witness :
  get_address_in_network (H := ipv4) None None false demo_host =
    IO [] (Raise (TypeError "unexpected type <type 'NoneType'> for addr arg")) ∧
  outcome (get_address_in_network (H := ipv4) None None false demo_host) ≠ Ret None.
Proof.
  apply (get_address_in_network_none_raises (H := ipv4) demo_host
           (TypeError "unexpected type <type 'NoneType'> for addr arg")).
  reflexivity.
Defined.

Lemma get_address_in_network_first_match_witness :
  get_address_in_network (H := ipv4) (Some "192.168.0.0/16") (Some "10.0.0.1") true demo_host =
    IO [] (Ret (Some "192.168.1.5")).
Proof.
  apply (proj1 (get_address_in_network_first_match (H := ipv4) "192.168.0.0/16"
                  (IPv4.Net 3232235520 16) (Some "10.0.0.1") true demo_host eq_refl)
           ["lo"] "eth0" ["eth1"] (entry "192.168.1.5" "255.255.255.0")
           (IPv4.Net 3232235781 24)).
  - reflexivity.
  - constructor; [| constructor]. right.
    exists (entry "127.0.0.1" "255.0.0.0"), (IPv4.Net 2130706433 8).
    split; [apply demo_lo_subnet | by vm_compute].
  - apply demo_eth0_subnet.
  - by vm_compute.
Defined.

Lemma malformed_cidr_raises_witness :
  identifies (cidr_error (Some "not-a-cidr")) "not-a-cidr" = true ∧
  (∀ a, is_address_in_network (H := ipv4) "not-a-cidr" a =
          Raise (ValueError "Network (not-a-cidr) is not in CIDR presentation format")) ∧
  (∀ fb fatal h, get_address_in_network (H := ipv4) (Some "not-a-cidr") fb fatal h =
          IO [] (Raise (ValueError "Network (not-a-cidr) is not in CIDR presentation format"))).
Proof.
  apply (malformed_cidr_raises (H := ipv4) "not-a-cidr"
           (AddrFormatError "invalid IPNetwork not-a-cidr")); reflexivity.
Defined.

Lemma is_address_in_network_containment_witness :
  is_address_in_network (H := ipv4) "10.0.0.0/8" "10.20.30.40" = Ret true.
Proof.
  apply (proj1 is_address_in_network_containment ipv4 "10.0.0.0/8" "10.20.30.40"
           (IPv4.Net 167772160 8) 169090600); reflexivity.
Defined.

Lemma not_found_without_network_raises_witness :
  output (get_address_in_network (H := ipv4) None None false demo_host) = [] ∧
  outcome (get_address_in_network (H := ipv4) None None false demo_host) ≠ Ret None ∧
  (∀ code, outcome (get_address_in_network (H := ipv4) None None false demo_host)
             ≠ Raise (SystemExit code)).
Proof.
  apply (not_found_without_network_raises (H := ipv4) demo_host
           (TypeError "unexpected type <type 'NoneType'> for addr arg")).
  reflexivity.
Defined.

Lemma lookups_for_address_witness :
  (get_iface_for_address (H := ipv4) "192.168.1.77" demo_host = Ret (Some "eth0") ∧
   get_netmask_for_address (H := ipv4) "192.168.1.77" demo_host = Ret (Some "255.255.255.0")) ∧
  (get_iface_for_address (H := ipv4) "10.9.9.1" demo_host = Ret None ∧
   get_netmask_for_address (H := ipv4) "10.9.9.1" demo_host = Ret None).
Proof.
  split.
  - apply (proj2 (lookups_for_address (H := ipv4) "192.168.1.77" 3232235853 demo_host eq_refl)
             ["lo"] "eth0" ["eth1"] (entry "192.168.1.5" "255.255.255.0")
             (IPv4.Net 3232235781 24) "255.255.255.0").
    + reflexivity.
    + constructor; [| constructor]. right.
      exists (entry "127.0.0.1" "255.0.0.0"), (IPv4.Net 2130706433 8).
      split; [apply demo_lo_subnet | by vm_compute].
    + apply demo_eth0_subnet.
    + by vm_compute.
    + by vm_compute.
  - apply (proj1 (lookups_for_address (H := ipv4) "10.9.9.1" 168364289 demo_host eq_refl)).
    constructor; [| constructor; [| constructor; [| constructor]]].
    + right. exists (entry "127.0.0.1" "255.0.0.0"), (IPv4.Net 2130706433 8).
      split; [apply demo_lo_subnet | by vm_compute].
    + right. exists (entry "192.168.1.5" "255.255.255.0"), (IPv4.Net 3232235781 24).
      split; [apply demo_eth0_subnet | by vm_compute].
    + left. apply demo_eth1_no_inet.
Defined.

Lemma lookups_leave_address_error_unwrapped_witness :
  get_iface_for_address (H := ipv4) "10.0.0.5/8" demo_host =
    Raise (ValueError
      "IPAddress() does not support netmasks or subnet prefixes! See documentation for details.") ∧
  get_netmask_for_address (H := ipv4) "10.0.0.5/8" demo_host =
    Raise (ValueError
      "IPAddress() does not support netmasks or subnet prefixes! See documentation for details.") ∧
  is_address_in_network (H := ipv4) "192.168.1.0/24" "10.0.0.5/8" =
    Raise (ValueError "Address (10.0.0.5/8) is not in correct presentation format") ∧
  identifies (ValueError "Address (10.0.0.5/8) is not in correct presentation format")
    "10.0.0.5/8" = true.
Proof.
  destruct (proj1 lookups_leave_address_error_unwrapped ipv4 "10.0.0.5/8"
              (ValueError
                 "IPAddress() does not support netmasks or subnet prefixes! See documentation for details.")
              demo_host eq_refl) as (Hi & Hm & Hwrap).
  split_and!; [exact Hi | exact Hm | |];
    apply (Hwrap eq_refl "192.168.1.0/24" (IPv4.Net 3232235776 24) eq_refl).
Defined.

Lemma scanned_address_is_in_network_witness :
  is_address_in_network (H := ipv4) "192.168.0.0/16" "192.168.1.5" = Ret true.
Proof.
  apply (scanned_address_is_in_network (H := ipv4) "192.168.0.0/16"
           (IPv4.Net 3232235520 16) None false demo_host "192.168.1.5").
  - reflexivity.
  - reflexivity.
  - left. discriminate.
Defined.

Lemma lookups_agree_witness :
  ∃ a pre post e cidr,
    IPAddress (NetAddr := ipv4) "192.168.1.77" = Ret a ∧
    interfaces demo_host = pre ++ "eth0" :: post ∧
    Forall (not_bound demo_host a) pre ∧
    subnet_of demo_host "eth0" e cidr ∧
    address_in a cidr = true ∧
    e !! "netmask" = Some "255.255.255.0".
Proof.
  apply (proj2 (lookups_agree (H := ipv4) "192.168.1.77" demo_host)); reflexivity.
Defined.

(** ** More of the resolver's behaviour *)

Section Behaviour.
Context `{NetAddr}.

Lemma address_loop_raises_at net h iface l x :
  raises_at h iface x → address_loop net h (iface :: l) = Raise x.
Proof.
  intros (entries & E & Hx). simpl. rewrite E.
  destruct entries as [|e more]; simpl; [by subst |].
  unfold getitem. destruct (e !! "addr") as [a|]; simpl; [| by subst].
  destruct (e !! "netmask") as [m|]; simpl; [| by subst].
  by rewrite Hx.
Qed.

Lemma for_address_loop_raises_at a key h iface l x :
  raises_at h iface x → for_address_loop a key h (iface :: l) = Raise x.
Proof.
  intros (entries & E & Hx). simpl. rewrite E.
  destruct entries as [|e more]; simpl; [by subst |].
  unfold getitem. destruct (e !! "addr") as [y|]; simpl; [| by subst].
  destruct (e !! "netmask") as [m|]; simpl; [| by subst].
  by rewrite Hx.
Qed.

(** Where a run of the loop that raised stopped. *)
Lemma address_loop_raise_inv net target h l x :
  IPNetwork net = Ret target → address_loop net h l = Raise x →
  ∃ pre iface post,
    l = pre ++ iface :: post ∧ Forall (outside h target) pre ∧ raises_at h iface x.
Proof.
  intros Ht. induction l as [|iface l IH]; [done |].
  assert (Hnext : outside h target iface → address_loop net h l = Raise x →
                  ∃ pre j post, iface :: l = pre ++ j :: post ∧
                    Forall (outside h target) pre ∧ raises_at h j x).
  { intros Ho (pre & j & post & -> & Hpre & Hj)%IH.
    exists (iface :: pre), j, post. split_and!; try done. by constructor. }
  assert (Hhere : raises_at h iface x →
                  ∃ pre j post, iface :: l = pre ++ j :: post ∧
                    Forall (outside h target) pre ∧ raises_at h j x).
  { intros Hr. by exists [], iface, l. }
  simpl. destruct (ifaddresses h iface !! AF_INET) as [entries|] eqn:E.
  2: { apply Hnext. by left. }
  destruct entries as [|e more]; simpl.
  { intros [= <-]. apply Hhere. by exists []. }
  unfold getitem. destruct (e !! "addr") as [a|] eqn:Ea; simpl.
  2: { intros [= <-]. apply Hhere. exists (e :: more). by rewrite Ea. }
  destruct (e !! "netmask") as [m|] eqn:Em; simpl.
  2: { intros [= <-]. apply Hhere. exists (e :: more). by rewrite Ea, Em. }
  destruct (IPNetwork (Some (a +:+ "/" +:+ m))) as [cidr|y] eqn:Ec; simpl.
  2: { intros [= <-]. apply Hhere. exists (e :: more). by rewrite Ea, Em. }
  rewrite Ht. simpl. destruct (network_in cidr target) eqn:Hc; [done |].
  apply Hnext. right. exists e, cidr. split; [| done]. by exists more, a, m.
Qed.

(** The three ways through [get_address_in_network]: the two early ends
    of the branch for a missing network, or validation and scan. *)
Lemma get_address_in_network_past_guard net fb fatal h :
  (∃ f, net = None ∧ fb = Some f ∧
        get_address_in_network net fb fatal h = IO [] (Ret (Some f))) ∨
  (net = None ∧ fb = None ∧ fatal = true ∧
   get_address_in_network net fb fatal h =
     IO [not_found_record None] (Raise (SystemExit 1))) ∨
  ((∀ target, IPNetwork net = Ret target →
      get_address_in_network net fb fatal h =
        match address_loop net h (interfaces h) with
        | Raise e => IO [] (Raise e)
        | Ret (Some a) => IO [] (Ret (Some a))
        | Ret None =>
            match fb with
            | Some f => IO [] (Ret (Some f))
            | None => if fatal then IO [not_found_record net] (Raise (SystemExit 1))
                      else IO [] (Ret None)
            end
        end) ∧
   (∀ x, IPNetwork net = Raise x →
      get_address_in_network net fb fatal h =
        IO [] (Raise (if is_format_error x then cidr_error net else x)))).
Proof.
  destruct net as [n|].
  - right. right. split.
    + intros target Ht. apply (get_address_in_network_scan _ _ _ _ _ Ht).
    + intros x Hx. apply (get_address_in_network_invalid _ _ _ _ _ Hx).
  - destruct fb as [f|]; [left; by exists f |].
    destruct fatal; [right; left; done |].
    right. right. unfold get_address_in_network, _validate_cidr. split.
    + intros target ->. simpl.
      by destruct (address_loop None h (interfaces h)) as [[a|]|y].
    + intros x ->. simpl. by destruct (is_format_error x).
Qed.

(** X1: when the network parses and the scan passes over every interface,
    a fallback that is set is returned, with nothing logged, whether
    [fatal] is set or not. *)
Theorem no_match_returns_fallback (n : string) (target : network) (fb : string)
    (fatal : bool) (h : host) :
  IPNetwork (Some n) = Ret target →
  Forall (outside h target) (interfaces h) →
  get_address_in_network (Some n) (Some fb) fatal h = IO [] (Ret (Some fb)).
Proof.
  intros Ht Hall. rewrite (get_address_in_network_scan _ _ _ _ _ Ht).
  by rewrite (address_loop_outside _ _ _ _ Ht Hall).
Qed.

(** X2: an interface whose first IPv4 entry cannot be read, met before any
    match, ends [get_address_in_network] with that exception ([IndexError],
    [KeyError] or the library's own, not turned into [ValueError]): the
    fallback is not returned, nothing is logged and the process does not
    exit, and interfaces further on are not looked at. *)
Theorem broken_interface_aborts_scan (n : string) (target : network)
    (fb : option string) (fatal : bool) (h : host)
    (pre : list string) (iface : string) (post : list string) (x : exn) :
  IPNetwork (Some n) = Ret target →
  interfaces h = pre ++ iface :: post →
  Forall (outside h target) pre →
  raises_at h iface x →
  get_address_in_network (Some n) fb fatal h = IO [] (Raise x).
Proof.
  intros Ht Hi Hpre Hx. rewrite (get_address_in_network_scan _ _ _ _ _ Ht), Hi.
  clear Hi.
  assert (El : address_loop (Some n) h (pre ++ iface :: post) = Raise x).
  { induction Hpre as [|j l [Hn | (e & c & Hs & Hc)] _ IH]; simpl app.
    - by apply address_loop_raises_at.
    - by rewrite address_loop_no_inet.
    - by rewrite (address_loop_subnet _ _ _ _ _ _ _ Ht Hs), Hc. }
  by rewrite El.
Qed.

(** X3: the same for the lookups, whatever the key asked for. *)
Theorem broken_interface_aborts_lookup (s key : string) (a : address) (h : host)
    (pre : list string) (iface : string) (post : list string) (x : exn) :
  IPAddress s = Ret a →
  interfaces h = pre ++ iface :: post →
  Forall (not_bound h a) pre →
  raises_at h iface x →
  _get_for_address s key h = Raise x.
Proof.
  intros Ha Hi Hpre Hx. unfold _get_for_address. rewrite Ha, Hi. simpl.
  rewrite (for_address_loop_skip _ _ _ _ _ Hpre).
  by apply for_address_loop_raises_at.
Qed.

(** X4: with a network that parses, no fallback and [fatal] off, every
    call ends in one of three ways, each telling what the scan met: an
    address returned is that of the first match, [None] means every
    interface was passed over, and an exception is the one of the first
    interface that could not be read. *)
Theorem scan_outcomes (n : string) (target : network) (h : host) :
  IPNetwork (Some n) = Ret target →
  output (get_address_in_network (Some n) None false h) = [] ∧
  match outcome (get_address_in_network (Some n) None false h) with
  | Ret (Some found) =>
      ∃ pre iface post e cidr,
        interfaces h = pre ++ iface :: post ∧ Forall (outside h target) pre ∧
        subnet_of h iface e cidr ∧ network_in cidr target = true ∧
        found = address_str (network_ip cidr)
  | Ret None => Forall (outside h target) (interfaces h)
  | Raise x =>
      ∃ pre iface post,
        interfaces h = pre ++ iface :: post ∧ Forall (outside h target) pre ∧
        raises_at h iface x
  end.
Proof.
  intros Ht. rewrite (get_address_in_network_scan _ _ _ _ _ Ht).
  destruct (address_loop (Some n) h (interfaces h)) as [[a|]|x] eqn:El; simpl.
  - split; [done |]. apply (address_loop_inv _ _ _ _ _ Ht El).
  - split; [done |]. apply (address_loop_inv _ _ _ _ _ Ht El).
  - split; [done |]. apply (address_loop_raise_inv _ _ _ _ _ Ht El).
Qed.

(** X5: [get_address_in_network] returns [None] exactly when the library
    accepts the network, the scan passes over every interface, no
    fallback is given and [fatal] is off. *)
Theorem returns_none_iff (net fb : option string) (fatal : bool) (h : host) :
  outcome (get_address_in_network net fb fatal h) = Ret None ↔
  fb = None ∧ fatal = false ∧
  ∃ target, IPNetwork net = Ret target ∧ Forall (outside h target) (interfaces h).
Proof.
  split.
  - destruct (get_address_in_network_past_guard net fb fatal h)
      as [(f & -> & -> & ->) | [(-> & -> & -> & ->) | Hgo]]; [done | done |].
    destruct (IPNetwork net) as [target|x] eqn:Ht.
    + rewrite (proj1 Hgo target eq_refl).
      destruct (address_loop net h (interfaces h)) as [[a|]|y] eqn:El; simpl; try done.
      destruct fb; [done |]. destruct fatal; [done |]. intros _.
      split_and!; try done. exists target. split; [done |].
      apply (address_loop_inv _ _ _ _ _ Ht El).
    + by rewrite (proj2 Hgo x eq_refl).
  - intros (-> & -> & target & Ht & Hall).
    destruct (get_address_in_network_past_guard net None false h)
      as [(f & _ & ? & _) | [(_ & _ & ? & _) | Hgo]]; [done | done |].
    rewrite (proj1 Hgo target Ht).
    by rewrite (address_loop_outside _ _ _ _ Ht Hall).
Qed.

(** X6: the log is written on the exit path only: a call either logs
    nothing, or logs the one [ERROR] record naming the network and then
    exits with code 1, which takes [fatal] set and no fallback. *)
Theorem logs_only_before_exit (net fb : option string) (fatal : bool) (h : host) :
  output (get_address_in_network net fb fatal h) = [] ∨
  (get_address_in_network net fb fatal h =
     IO [not_found_record net] (Raise (SystemExit 1)) ∧
   fatal = true ∧ fb = None).
Proof.
  unfold get_address_in_network, _validate_cidr.
  destruct net as [n|], fb as [f|], fatal; simpl; try (by left); try (by right).
  all: destruct (IPNetwork _) as [target|x]; simpl;
    [| destruct (is_format_error x); by left].
  all: destruct (address_loop _ h (interfaces h)) as [[a|]|y]; simpl;
    try (by left); by right.
Qed.

End Behaviour.

Section Lookup_behaviour.
Context `{NetAddr}.

(** X7: [_get_for_address] with any key: at the first interface whose
    first IPv4 entry holds the address, the key ["iface"] gives the
    interface's name, another key gives the entry's value under it, and a
    key the entry does not have raises [KeyError]. *)
Theorem lookup_by_key (s key : string) (a : address) (h : host)
    (pre : list string) (iface : string) (post : list string)
    (e : gmap string string) (cidr : network) :
  IPAddress s = Ret a →
  interfaces h = pre ++ iface :: post →
  Forall (not_bound h a) pre →
  subnet_of h iface e cidr →
  address_in a cidr = true →
  _get_for_address s key h =
    if String.eqb key "iface" then Ret (Some iface)
    else match e !! key with
         | Some v => Ret (Some v)
         | None => Raise (KeyError key)
         end.
Proof.
  intros Ha Hi Hpre Hs Hc. unfold _get_for_address. rewrite Ha, Hi. simpl.
  rewrite (for_address_loop_skip _ _ _ _ _ Hpre).
  rewrite (for_address_loop_subnet _ _ _ _ _ _ _ Hs), Hc.
  destruct (String.eqb key "iface"); [done |].
  unfold getitem. by destruct (e !! key).
Qed.

(** X8: the lookups agree with [is_address_in_network]: when
    [get_iface_for_address] names an interface, the address is, by
    [is_address_in_network], in the network written as that interface's
    first address, a slash and its netmask, and [get_netmask_for_address]
    returns that netmask. *)
Theorem bound_address_is_in_subnet (s : string) (h : host) (name : string) :
  get_iface_for_address s h = Ret (Some name) →
  ∃ e x m,
    (∃ more, ifaddresses h name !! AF_INET = Some (e :: more)) ∧
    e !! "addr" = Some x ∧ e !! "netmask" = Some m ∧
    is_address_in_network (x +:+ "/" +:+ m) s = Ret true ∧
    get_netmask_for_address s h = Ret (Some m).
Proof.
  unfold get_iface_for_address, get_netmask_for_address, _get_for_address.
  destruct (IPAddress s) as [a|y] eqn:Ha; simpl; [| done].
  destruct (for_address_loop_both a h (interfaces h))
    as [(y & -> & _) | [(_ & -> & _) | (pre & j & post & e & c & m & _ & _ & Hs & Hc & Hm & -> & ->)]];
    [done | done |].
  intros [= <-]. destruct Hs as (more & x & m' & E & Ex & Em & Ec).
  assert (m' = m) as -> by congruence.
  exists e, x, m. split_and!; try done; [by exists more |].
  unfold is_address_in_network. rewrite Ec, Ha. simpl. by rewrite Hc.
Qed.

(** X9: [is_address_in_network] lets no [AddrFormatError] out: an
    exception it raises is its own [ValueError] for the network (the
    library rejected the network), its own [ValueError] for the address
    (the network parsed and the library rejected the address), or an
    exception of the library that is not a format error. *)
Theorem is_address_in_network_errors (s t : string) :
  (∀ msg, is_address_in_network s t ≠ Raise (AddrFormatError msg)) ∧
  (∀ e, is_address_in_network s t = Raise e →
     (e = cidr_error (Some s) ∧
      ∃ x, IPNetwork (Some s) = Raise x ∧ is_format_error x = true) ∨
     (e = ValueError ("Address (" +:+ t +:+ ") is not in correct presentation format") ∧
      (∃ n, IPNetwork (Some s) = Ret n) ∧
      ∃ x, IPAddress t = Raise x ∧ is_format_error x = true) ∨
     (is_format_error e = false ∧
      (IPNetwork (Some s) = Raise e ∨ IPAddress t = Raise e))).
Proof.
  assert (Hall : ∀ e, is_address_in_network s t = Raise e →
     (e = cidr_error (Some s) ∧
      ∃ x, IPNetwork (Some s) = Raise x ∧ is_format_error x = true) ∨
     (e = ValueError ("Address (" +:+ t +:+ ") is not in correct presentation format") ∧
      (∃ n, IPNetwork (Some s) = Ret n) ∧
      ∃ x, IPAddress t = Raise x ∧ is_format_error x = true) ∨
     (is_format_error e = false ∧
      (IPNetwork (Some s) = Raise e ∨ IPAddress t = Raise e))).
  { intros e. unfold is_address_in_network.
    destruct (IPNetwork (Some s)) as [n|x] eqn:En; simpl.
    - destruct (IPAddress t) as [a|x] eqn:Ea; simpl.
      + by destruct (address_in a n).
      + destruct (is_format_error x) eqn:Ex; intros [= <-].
        * right. left. split_and!; [done | by exists n | by exists x].
        * right. right. split; [done | by right].
    - destruct (is_format_error x) eqn:Ex; intros [= <-].
      + left. split; [done | by exists x].
      + right. right. split; [done | by left]. }
  split; [| done].
  intros msg Hr. destruct (Hall _ Hr) as [[? _] | [[? _] | [? _]]]; done.
Qed.

Lemma address_loop_same net h h' l :
  (∀ iface, iface ∈ l → first_inet h iface = first_inet h' iface) →
  address_loop net h l = address_loop net h' l.
Proof.
  induction l as [|iface l IH]; [done |]. intros Hsame.
  assert (Hl : address_loop net h l = address_loop net h' l).
  { apply IH. intros j Hj. apply Hsame. by right. }
  assert (Hi : first_inet h iface = first_inet h' iface) by (apply Hsame; by left).
  simpl. unfold first_inet in Hi.
  destruct (ifaddresses h iface !! AF_INET) as [[|e more]|],
           (ifaddresses h' iface !! AF_INET) as [[|e' more']|];
    simpl in Hi; try done.
  injection Hi as Ea Em. simpl. unfold getitem. by rewrite Ea, Em, Hl.
Qed.

Lemma for_address_loop_same a key h h' l :
  key = "iface" ∨ key = "netmask" →
  (∀ iface, iface ∈ l → first_inet h iface = first_inet h' iface) →
  for_address_loop a key h l = for_address_loop a key h' l.
Proof.
  intros Hkey. induction l as [|iface l IH]; [done |]. intros Hsame.
  assert (Hl : for_address_loop a key h l = for_address_loop a key h' l).
  { apply IH. intros j Hj. apply Hsame. by right. }
  assert (Hi : first_inet h iface = first_inet h' iface) by (apply Hsame; by left).
  simpl. unfold first_inet in Hi.
  destruct (ifaddresses h iface !! AF_INET) as [[|e more]|],
           (ifaddresses h' iface !! AF_INET) as [[|e' more']|];
    simpl in Hi; try done.
  injection Hi as Ea Em. simpl. unfold getitem.
  destruct Hkey as [-> | ->]; simpl; by rewrite Ea, Em, Hl.
Qed.

(** X10: the three scans read nothing of the host but the list of
    interfaces and, for each, the ["addr"] and ["netmask"] of the first
    IPv4 entry: two hosts that agree on these give the same results,
    whatever their further addresses, other address families and other
    keys. *)
Theorem first_entries_decide (h h' : host) :
  interfaces h = interfaces h' →
  (∀ iface, iface ∈ interfaces h → first_inet h iface = first_inet h' iface) →
  (∀ net fb fatal,
     get_address_in_network net fb fatal h = get_address_in_network net fb fatal h') ∧
  (∀ s, get_iface_for_address s h = get_iface_for_address s h' ∧
        get_netmask_for_address s h = get_netmask_for_address s h').
Proof.
  intros Hi Hsame. split.
  - intros net fb fatal. unfold get_address_in_network.
    by rewrite <- Hi, (address_loop_same net h h' _ Hsame).
  - intros s. unfold get_iface_for_address, get_netmask_for_address, _get_for_address.
    destruct (IPAddress s) as [a|x]; simpl; [| done].
    rewrite <- Hi. split; apply for_address_loop_same; auto.
Qed.

End Lookup_behaviour.

Section Lawful_behaviour.
Context `{NetAddrLaws}.

(** X11: [get_address_in_network] ends the process exactly when [fatal]
    is set, no fallback is given, and either no network is given or the
    network parses and the scan passes over every interface; it then has
    logged the one [ERROR] record and the exit code is 1. *)
Theorem fatal_exit_iff (net fb : option string) (fatal : bool) (h : host) :
  ((∃ code, outcome (get_address_in_network net fb fatal h) = Raise (SystemExit code)) ↔
   fatal = true ∧ fb = None ∧
   (net = None ∨
    ∃ target, IPNetwork net = Ret target ∧ Forall (outside h target) (interfaces h))) ∧
  (∀ code, outcome (get_address_in_network net fb fatal h) = Raise (SystemExit code) →
     get_address_in_network net fb fatal h =
       IO [not_found_record net] (Raise (SystemExit 1))).
Proof.
  split; [split |].
  - intros [code Hc]. apply fatal_exit_only in Hc as (-> & -> & _ & _ & Hwhy).
    split_and!; try done. destruct Hwhy as [-> | (target & Ht & Hl)]; [by left |].
    right. exists target. split; [done |]. apply (address_loop_inv _ _ _ _ _ Ht Hl).
  - intros (-> & -> & Hwhy). exists 1. rewrite fatal_exit_taken; [done |].
    destruct Hwhy as [-> | (target & Ht & Hall)]; [by left |].
    right. exists target. split; [done |]. by apply address_loop_outside with target.
  - intros code Hc. pose proof Hc as Hc'.
    apply fatal_exit_only in Hc' as (_ & _ & -> & Ho & _).
    destruct (get_address_in_network net fb fatal h) as [o r]. simpl in *. by subst.
Qed.

(** X12: [is_address_in_network], [get_iface_for_address] and
    [get_netmask_for_address] never end the process. *)
Theorem membership_and_lookups_never_exit (net addr : string) (h : host) (code : Z) :
  is_address_in_network net addr ≠ Raise (SystemExit code) ∧
  get_iface_for_address addr h ≠ Raise (SystemExit code) ∧
  get_netmask_for_address addr h ≠ Raise (SystemExit code).
Proof.
  split; [apply (other_operations_no_exit net addr h code) |].
  apply (other_operations_no_exit addr addr h code).
Qed.

(** Among interfaces that can be read, ahead of one whose entry holds the
    address, the lookups stop at one of them. *)
Lemma for_address_loop_reaches a h pre iface post e cidr :
  Forall (readable h) pre → subnet_of h iface e cidr → address_in a cidr = true →
  ∃ name mask,
    name ∈ pre ++ iface :: post ∧
    for_address_loop a "iface" h (pre ++ iface :: post) = Ret (Some name) ∧
    for_address_loop a "netmask" h (pre ++ iface :: post) = Ret (Some mask).
Proof.
  intros Hpre Hs Hc.
  assert (Hhit : ∀ j l e' c', subnet_of h j e' c' → address_in a c' = true →
    ∃ name mask, name ∈ j :: l ∧
      for_address_loop a "iface" h (j :: l) = Ret (Some name) ∧
      for_address_loop a "netmask" h (j :: l) = Ret (Some mask)).
  { intros j l e' c' Hs' Hc'. pose proof Hs' as (more & x & m & _ & _ & Em & _).
    exists j, m. rewrite !(for_address_loop_subnet _ _ _ _ _ _ _ Hs'), Hc'. simpl.
    unfold getitem. rewrite Em. split_and!; try done. by left. }
  induction Hpre as [|j l [Hn | (e' & c' & Hs')] _ IH]; simpl app.
  - by apply Hhit with e cidr.
  - destruct IH as (name & mask & Hin & Hi & Hm). exists name, mask.
    rewrite !for_address_loop_no_inet by done. split_and!; try done. by right.
  - destruct (address_in a c') eqn:Hc'; [by apply Hhit with e' c' |].
    destruct IH as (name & mask & Hin & Hi & Hm). exists name, mask.
    rewrite !(for_address_loop_subnet _ _ _ _ _ _ _ Hs'), Hc'.
    split_and!; try done. by right.
Qed.

(** X13: with a library in which a network holds its own address, an
    address that [get_address_in_network] returns from its scan can be
    looked up: [get_iface_for_address] returns one of the host's
    interfaces for it and [get_netmask_for_address] a netmask. *)
Theorem scanned_address_is_bindable (n : string) (target : network)
    (fatal : bool) (h : host) (found : string) :
  (∀ s c, IPNetwork (Some s) = Ret c → address_in (network_ip c) c = true) →
  IPNetwork (Some n) = Ret target →
  outcome (get_address_in_network (Some n) None fatal h) = Ret (Some found) →
  ∃ name mask,
    name ∈ interfaces h ∧
    get_iface_for_address found h = Ret (Some name) ∧
    get_netmask_for_address found h = Ret (Some mask).
Proof.
  intros Hown Ht. rewrite (get_address_in_network_scan _ _ _ _ _ Ht).
  destruct (address_loop (Some n) h (interfaces h)) as [[a|]|x] eqn:El; simpl;
    [| by destruct fatal | done].
  intros [= ->].
  destruct (address_loop_inv _ _ _ _ _ Ht El)
    as (pre & iface & post & e & cidr & Hi & Hpre & Hs & _ & ->).
  pose proof Hs as (more & x & m & _ & _ & _ & Ec).
  unfold get_iface_for_address, get_netmask_for_address, _get_for_address.
  rewrite (address_str_parses _ _ Ec), Hi. simpl.
  apply for_address_loop_reaches with e cidr; [| done | by apply Hown with (x +:+ "/" +:+ m)].
  apply (Forall_impl _ _ _ Hpre). intros j [Hn | (e' & c' & Hs' & _)]; [by left |].
  right. by exists e', c'.
Qed.

End Lawful_behaviour.

Lemma ipv4_network_holds_own_address s c :
  IPNetwork (NetAddr := ipv4) (Some s) = Ret c →
  address_in (NetAddr := ipv4) (network_ip c) c = true.
Proof.
  simpl. intros [[a Ha] Hp]%IPv4Facts.IPNetwork_inv.
  apply IPv4Facts.str_to_int_nonneg in Ha.
  pose proof (IPv4Facts.first_le_value c Ha).
  pose proof (IPv4Facts.value_le_last c (proj2 Hp)).
  unfold IPv4.address_in. apply andb_true_iff. split; by apply Z.leb_le.
Qed.

(** ** The further behaviour on concrete hosts *)

Lemma demo_outside_ten :
  Forall (outside (H := ipv4) demo_host (IPv4.Net 167772160 8)) (interfaces demo_host).
Proof.
  constructor; [| constructor; [| constructor; [| constructor]]].
  - right. exists (entry "127.0.0.1" "255.0.0.0"), (IPv4.Net 2130706433 8).
    split; [apply demo_lo_subnet | by vm_compute].
  - right. exists (entry "192.168.1.5" "255.255.255.0"), (IPv4.Net 3232235781 24).
    split; [apply demo_eth0_subnet | by vm_compute].
  - left. apply demo_eth1_no_inet.
Defined.

Lemma tunnel_lo_subnet :
  subnet_of (H := ipv4) tunnel_host "lo" (entry "127.0.0.1" "255.0.0.0")
    (IPv4.Net 2130706433 8).
Proof. exists [], "127.0.0.1", "255.0.0.0". by vm_compute. Defined.

Lemma tunnel_tun0_raises :
  raises_at (H := ipv4) tunnel_host "tun0" (KeyError "netmask").
Proof.
  exists [ ({[ "addr" := "10.8.0.1"; "peer" := "10.8.0.2" ]} : gmap string string) ].
  by vm_compute.
Defined.

Lemma no_match_returns_fallback_witness :
  get_address_in_network (H := ipv4) (Some "10.0.0.0/8") (Some "10.0.0.1") true demo_host =
    IO [] (Ret (Some "10.0.0.1")).
Proof.
  apply (no_match_returns_fallback (H := ipv4) "10.0.0.0/8" (IPv4.Net 167772160 8)
           "10.0.0.1" true demo_host eq_refl demo_outside_ten).
Defined.

Lemma broken_interface_aborts_scan_witness :
  get_address_in_network (H := ipv4) (Some "192.168.0.0/16") (Some "10.0.0.1") true
    tunnel_host = IO [] (Raise (KeyError "netmask")).
Proof.
  apply (broken_interface_aborts_scan (H := ipv4) "192.168.0.0/16"
           (IPv4.Net 3232235520 16) (Some "10.0.0.1") true tunnel_host
           ["lo"] "tun0" ["eth0"] (KeyError "netmask") eq_refl eq_refl).
  - constructor; [| constructor]. right.
    exists (entry "127.0.0.1" "255.0.0.0"), (IPv4.Net 2130706433 8).
    split; [apply tunnel_lo_subnet | by vm_compute].
  - apply tunnel_tun0_raises.
Defined.

Lemma broken_interface_aborts_lookup_witness :
  _get_for_address (H := ipv4) "192.168.1.77" "iface" tunnel_host =
    Raise (KeyError "netmask").
Proof.
  apply (broken_interface_aborts_lookup (H := ipv4) "192.168.1.77" "iface" 3232235853
           tunnel_host ["lo"] "tun0" ["eth0"] (KeyError "netmask") eq_refl eq_refl).
  - constructor; [| constructor]. right.
    exists (entry "127.0.0.1" "255.0.0.0"), (IPv4.Net 2130706433 8).
    split; [apply tunnel_lo_subnet | by vm_compute].
  - apply tunnel_tun0_raises.
Defined.

Lemma scan_outcomes_witness :
  output (get_address_in_network (H := ipv4) (Some "192.168.0.0/16") None false tunnel_host)
    = [] ∧
  ∃ pre iface post,
    interfaces tunnel_host = pre ++ iface :: post ∧
    Forall (outside (H := ipv4) tunnel_host (IPv4.Net 3232235520 16)) pre ∧
    raises_at (H := ipv4) tunnel_host iface (KeyError "netmask").
Proof.
  exact (scan_outcomes (H := ipv4) "192.168.0.0/16" (IPv4.Net 3232235520 16)
           tunnel_host eq_refl).
Defined.

Lemma returns_none_iff_witness :
  outcome (get_address_in_network (H := ipv4) (Some "10.0.0.0/8") None false demo_host) =
    Ret None.
Proof.
  apply (proj2 (returns_none_iff (H := ipv4) (Some "10.0.0.0/8") None false demo_host)).
  split_and!; [reflexivity | reflexivity |].
  exists (IPv4.Net 167772160 8). split; [reflexivity | apply demo_outside_ten].
Defined.

Lemma lookup_by_key_witness :
  _get_for_address (H := ipv4) "192.168.1.77" "addr" demo_host = Ret (Some "192.168.1.5") ∧
  _get_for_address (H := ipv4) "192.168.1.77" "broadcast" demo_host =
    Raise (KeyError "broadcast").
Proof.
  assert (Hlo : Forall (not_bound (H := ipv4) demo_host 3232235853) ["lo"]).
  { constructor; [| constructor]. right.
    exists (entry "127.0.0.1" "255.0.0.0"), (IPv4.Net 2130706433 8).
    split; [apply demo_lo_subnet | by vm_compute]. }
  split.
  - exact (lookup_by_key (H := ipv4) "192.168.1.77" "addr" 3232235853 demo_host
             ["lo"] "eth0" ["eth1"] (entry "192.168.1.5" "255.255.255.0")
             (IPv4.Net 3232235781 24) eq_refl eq_refl Hlo demo_eth0_subnet eq_refl).
  - exact (lookup_by_key (H := ipv4) "192.168.1.77" "broadcast" 3232235853 demo_host
             ["lo"] "eth0" ["eth1"] (entry "192.168.1.5" "255.255.255.0")
             (IPv4.Net 3232235781 24) eq_refl eq_refl Hlo demo_eth0_subnet eq_refl).
Defined.

Lemma bound_address_is_in_subnet_witness :
  ∃ e x m,
    (∃ more, ifaddresses demo_host "eth0" !! AF_INET = Some (e :: more)) ∧
    e !! "addr" = Some x ∧ e !! "netmask" = Some m ∧
    is_address_in_network (H := ipv4) (x +:+ "/" +:+ m) "192.168.1.77" = Ret true ∧
    get_netmask_for_address (H := ipv4) "192.168.1.77" demo_host = Ret (Some m).
Proof.
  apply (bound_address_is_in_subnet (H := ipv4) "192.168.1.77" demo_host "eth0").
  reflexivity.
Defined.

Lemma is_address_in_network_errors_witness :
  (ValueError "Network (not-a-cidr) is not in CIDR presentation format" =
     cidr_error (Some "not-a-cidr") ∧
   ∃ x, IPNetwork (NetAddr := ipv4) (Some "not-a-cidr") = Raise x ∧
        is_format_error x = true) ∨
  (ValueError "Network (not-a-cidr) is not in CIDR presentation format" =
     ValueError ("Address (" +:+ "10.0.0.5" +:+ ") is not in correct presentation format") ∧
   (∃ n, IPNetwork (NetAddr := ipv4) (Some "not-a-cidr") = Ret n) ∧
   ∃ x, IPAddress (NetAddr := ipv4) "10.0.0.5" = Raise x ∧ is_format_error x = true) ∨
  (is_format_error (ValueError "Network (not-a-cidr) is not in CIDR presentation format")
     = false ∧
   (IPNetwork (NetAddr := ipv4) (Some "not-a-cidr") =
      Raise (ValueError "Network (not-a-cidr) is not in CIDR presentation format") ∨
    IPAddress (NetAddr := ipv4) "10.0.0.5" =
      Raise (ValueError "Network (not-a-cidr) is not in CIDR presentation format"))).
Proof.
  apply (proj2 (is_address_in_network_errors (H := ipv4) "not-a-cidr" "10.0.0.5")
           (ValueError "Network (not-a-cidr) is not in CIDR presentation format")).
  reflexivity.
Defined.

Lemma first_entries_decide_witness :
  (∀ net fb fatal,
     get_address_in_network (H := ipv4) net fb fatal demo_host =
     get_address_in_network (H := ipv4) net fb fatal demo_host_aliased) ∧
  (∀ s, get_iface_for_address (H := ipv4) s demo_host =
          get_iface_for_address (H := ipv4) s demo_host_aliased ∧
        get_netmask_for_address (H := ipv4) s demo_host =
          get_netmask_for_address (H := ipv4) s demo_host_aliased).
Proof.
  apply (first_entries_decide (H := ipv4) demo_host demo_host_aliased eq_refl).
  intros iface Hin. simpl in Hin.
  repeat (apply elem_of_cons in Hin as [-> | Hin]; [by vm_compute |]).
  by apply elem_of_nil in Hin.
Defined.

Lemma fatal_exit_iff_witness :
  ∃ code,
    outcome (get_address_in_network (H := ipv4) (Some "10.0.0.0/8") None true demo_host) =
      Raise (SystemExit code).
Proof.
  apply (proj2 (proj1 (fatal_exit_iff (H := ipv4) (Some "10.0.0.0/8") None true demo_host))).
  split_and!; [reflexivity | reflexivity |].
  right. exists (IPv4.Net 167772160 8). split; [reflexivity | apply demo_outside_ten].
Defined.

Lemma membership_and_lookups_never_exit_witness :
  is_address_in_network (H := ipv4) "not-a-cidr" "10.0.0.5" ≠ Raise (SystemExit 1) ∧
  get_iface_for_address (H := ipv4) "10.0.0.5" tunnel_host ≠ Raise (SystemExit 1) ∧
  get_netmask_for_address (H := ipv4) "10.0.0.5" tunnel_host ≠ Raise (SystemExit 1).
Proof.
  apply (membership_and_lookups_never_exit (H := ipv4) (H0 := ipv4_laws)
           "not-a-cidr" "10.0.0.5" tunnel_host 1).
Defined.

Lemma scanned_address_is_bindable_witness :
  ∃ name mask,
    name ∈ interfaces demo_host ∧
    get_iface_for_address (H := ipv4) "192.168.1.5" demo_host = Ret (Some name) ∧
    get_netmask_for_address (H := ipv4) "192.168.1.5" demo_host = Ret (Some mask).
Proof.
  apply (scanned_address_is_bindable (H := ipv4) (H0 := ipv4_laws) "192.168.0.0/16"
           (IPv4.Net 3232235520 16) false demo_host "192.168.1.5"
           ipv4_network_holds_own_address eq_refl eq_refl).
Defined.
